(** * ccmlib/dse_node.py: the DSE node of ccm

    A shallow embedding of [DseNode] (src/ccmlib/dse_node.py) and the
    properties of its configuration merging and of its process life cycle.

    Python values are modelled by the inductive type [value]; a [dict] is a
    finite map ([gmap]); an exception is the [Raise] outcome of the type
    [result]; code with side effects runs in a state-and-exception monad
    over a [world] that holds the file system, the live processes, the
    node's attributes and the trace of the effects performed so far. *)

From Stdlib Require Import Ascii.
From stdpp Require Import gmap strings pretty list fin_maps.

Local Set Warnings "-register-all,-clear-no-such-hyp".
Local Open Scope string_scope.
Local Open Scope list_scope.
Local Open Scope Z_scope.

(** ** Exceptions and outcomes *)

Inductive exn :=
  | KeyError
  | TypeError
  | IndexError
  | ValueError
  | AttributeError
  | UnboundLocalError
  | IOError
  | OSError
  | XPathEvalError
  | XMLSyntaxError
  | YAMLError
  | UnavailableSocketError
  | NodeError (msg : string)
  | ArgumentError (msg : string).

Global Instance exn_eq_dec : EqDecision exn.
Proof. solve_decision. Defined.

Inductive result (A : Type) :=
  | Ok (a : A)
  | Raise (e : exn).
Arguments Ok {A} a.
Arguments Raise {A} e.

Definition rbind {A B} (r : result A) (k : A → result B) : result B :=
  match r with
  | Ok a => k a
  | Raise e => Raise e
  end.

(** ** Values of a YAML document *)

(** The keys of a mapping: strings and integers.  Python hashes [True] and
    [False] as [1] and [0], so a boolean used as a key is the key [KInt]. *)
Inductive key :=
  | KInt (z : Z)
  | KStr (s : string).

Global Instance key_eq_dec : EqDecision key.
Proof. solve_decision. Defined.

Definition key_to_sum (k : key) : Z + string :=
  match k with KInt z => inl z | KStr s => inr s end.

Definition key_of_sum (x : Z + string) : key :=
  match x with inl z => KInt z | inr s => KStr s end.

Global Instance key_countable : Countable key.
Proof. apply (inj_countable' key_to_sum key_of_sum). by intros []. Defined.

(** What [yaml.load] returns and [yaml.safe_dump] accepts: [None], plain
    scalars, sequences and mappings.  A document is a tree: two places of a
    document never share one object (no YAML anchors). *)
Inductive value :=
  | VNone
  | VBool (b : bool)
  | VInt (z : Z)
  | VStr (s : string)
  | VSeq (l : list value)
  | VMap (m : gmap key value).

Abbreviation dict := (gmap key value).

(** A path of the file system is the list of its components, from the
    root: [os.path.join(p, 'a', 'b')] is [p ++ ["a"; "b"]].  [render] is the
    string that Python holds for it. *)
Abbreviation fspath := (list string).

Definition render (p : fspath) : string :=
  foldr (λ c acc, "/" +:+ c +:+ acc) EmptyString p.

(** The double quote, as a character and as a string. *)
Definition dquote_char : ascii := ascii_of_nat 34.
Definition dquote : string := String dquote_char EmptyString.

(** The lines of a text, each one closed by a line feed. *)
Definition unlines (lines : list string) : string :=
  foldr (λ line acc, line +:+ String (ascii_of_nat 10) acc) EmptyString lines.

(** [str(b)] for a boolean. *)
Definition str_of_bool (b : bool) : string := if b then "True" else "False".

(** [f.readline()]: the text up to and with the first line feed. *)
Fixpoint readline (s : string) : string :=
  match s with
  | EmptyString => EmptyString
  | String c rest =>
      if decide (c = ascii_of_nat 10) then String c EmptyString else String c (readline rest)
  end.

(** [s.strip()] *)
Fixpoint lstrip (s : string) : string :=
  match s with
  | EmptyString => EmptyString
  | String c rest => if Ascii.is_space c then lstrip rest else s
  end.

Definition strip (s : string) : string :=
  String.rev (lstrip (String.rev (lstrip s))).

Fixpoint digits_value (acc : Z) (s : string) : option Z :=
  match s with
  | EmptyString => Some acc
  | String c rest =>
      match Ascii.is_nat c with
      | Some d => digits_value (10 * acc + Z.of_nat d) rest
      | None => None
      end
  end.

(** [int(s)] for a string: an optional sign and decimal digits, between
    optional blanks; [None] stands for the ValueError. *)
Definition int_of_string (s : string) : option Z :=
  match strip s with
  | EmptyString => None
  | String c rest =>
      if decide (c = "-"%char) then
        if decide (rest = EmptyString) then None else Z.opp <$> digits_value 0 rest
      else if decide (c = "+"%char) then
        if decide (rest = EmptyString) then None else digits_value 0 rest
      else digits_value 0 (String c rest)
  end.

(** [s[-1]] *)
Fixpoint last_char (s : string) : option ascii :=
  match s with
  | EmptyString => None
  | String c EmptyString => Some c
  | String _ rest => last_char rest
  end.

(** ** The structured merge of [_update_dse_yaml] *)

Module Merge.

(** [l[i]] on a Python list: negative indices count from the end. *)
Definition seq_getitem (l : list value) (i : Z) : result value :=
  let n := Z.of_nat (length l) in
  let j := if decide (i < 0) then i + n else i in
  if decide (0 ≤ j < n) then
    match l !! Z.to_nat j with
    | Some x => Ok x
    | None => Raise IndexError
    end
  else Raise IndexError.

(** [for option in src: target[option] = src[option]] where [src] is a
    list: every element has to be an integer (or a boolean) that is a valid
    index of [src]. *)
Fixpoint copy_seq_options (rest src : list value) (target : dict) : result dict :=
  match rest with
  | [] => Ok target
  | option :: rest' =>
      match option with
      | VInt i =>
          rbind (seq_getitem src i) (λ x,
            copy_seq_options rest' src (<[KInt i := x]> target))
      | VBool b =>
          rbind (seq_getitem src (Z.b2z b)) (λ x,
            copy_seq_options rest' src (<[KInt (Z.b2z b) := x]> target))
      | _ => Raise TypeError
      end
  end.

(** Lines 352-353: [for option in full_options[name]:
    data[name][option] = full_options[name][option]], by the type of
    [full_options[name]].  A mapping is iterated by key; a number, a
    boolean or [None] is not iterable; the elements of a non-empty string
    are strings, which do not index a string; an empty string or list is
    iterated zero times. *)
Definition copy_options (target : dict) (src : value) : result dict :=
  match src with
  | VMap o => Ok (map_fold (λ option x acc, <[option := x]> acc) target o)
  | VSeq l => copy_seq_options l l target
  | VStr s => if decide (s = EmptyString) then Ok target else Raise TypeError
  | VNone | VBool _ | VInt _ => Raise TypeError
  end.

(** One turn of the loop of lines 341-357 for [name], with
    [value = full_options[name]].  The mapping [data[name]] is updated in
    place by the source; in a tree-shaped document this is the update of
    the entry [name]. *)
Definition apply_override (name : key) (value : value) (data : dict) : result dict :=
  match value with
  | VNone =>
      (* del data[name]; a KeyError is passed over *)
      Ok (delete name data)
  | _ =>
      match data !! name with
      | Some (VMap existing) =>
          rbind (copy_options existing value) (λ merged,
            Ok (<[name := VMap merged]> data))
      | Some _ => Ok (<[name := value]> data)
      | None =>
          (* data[name] raised KeyError *)
          Ok (<[name := value]> data)
      end
  end.

Fixpoint for_each_option (items : list (key * value)) (data : dict) : result dict :=
  match items with
  | [] => Ok data
  | (name, value) :: items' =>
      rbind (apply_override name value data) (for_each_option items')
  end.

(** [dict(pairs)]: a later pair overwrites an earlier one with the same key. *)
Definition dict_of_items (pairs : list (key * value)) : dict :=
  foldl (λ d kv, <[kv.1 := kv.2]> d) ∅ pairs.

(** Line 340: [dict(list(cluster_options.items()) + list(node_options.items()))]. *)
Definition full_options (cluster_options node_options : dict) : dict :=
  dict_of_items (map_to_list cluster_options ++ map_to_list node_options).

Definition system_key_directory : key := KStr "system_key_directory".

(** Lines 338-357 of [_update_dse_yaml], from the loaded document to the
    document that is dumped; [keys_dir] is
    [os.path.join(self.get_path(), 'keys')]. *)
Definition update_dse_yaml_data (keys_dir : string)
    (cluster_options node_options : dict) (data : dict) : result dict :=
  let data := <[system_key_directory := VStr keys_dir]> data in
  for_each_option (map_to_list (full_options cluster_options node_options)) data.

End Merge.

(** ** The XML property lists of [set_xml_configuration_options] *)

Module Xml.

(** An element of an [lxml] tree: its tag, its attributes, the text before
    its first child, its children, and its tail (the text that follows its
    end tag inside its parent, which [lxml] keeps with the element). *)
Inductive element :=
  | Element (tag : string) (attrib : list (string * string))
      (text : option string) (children : list element) (tail : option string).

Definition tag (e : element) : string :=
  match e with Element t _ _ _ _ => t end.
Definition text (e : element) : option string :=
  match e with Element _ _ x _ _ => x end.
Definition children (e : element) : list element :=
  match e with Element _ _ _ c _ => c end.
Definition tail (e : element) : option string :=
  match e with Element _ _ _ _ x => x end.

Definition set_text (x : option string) (e : element) : element :=
  match e with Element t a _ c tl => Element t a x c tl end.
Definition set_children (c : list element) (e : element) : element :=
  match e with Element t a x _ tl => Element t a x c tl end.

(** [etree.Element(tag)] followed by [.text = x]. *)
Definition new_element (tag : string) (x : option string) : element :=
  Element tag [] x [] None.

Definition has_tag (t : string) (e : element) : bool :=
  bool_decide (tag e = t).

(** The XPath predicate [text()="s"] on an element: one of its text nodes
    is [s].  Its text nodes are its (non-empty) text and the (non-empty)
    tails of its children. *)
Definition text_equals (s : string) (e : element) : bool :=
  bool_decide (s ≠ EmptyString) &&
  (bool_decide (text e = Some s) ||
   existsb (λ c, bool_decide (tail c = Some s)) (children e)).

(** Whether [./name[text()="name"]] selects something below [p]. *)
Definition has_name (name : string) (p : element) : bool :=
  existsb (λ c, has_tag "name" c && text_equals name c) (children p).

(** The test of [./property/name[text()="name"]/..] on a child of the
    context node. *)
Definition is_property_named (name : string) (p : element) : bool :=
  has_tag "property" p && has_name name p.

(** The first element of [l] that satisfies [f], with its position: the
    head of a node set in document order. *)
Fixpoint find_first (f : element → bool) (l : list element) : option (nat * element) :=
  match l with
  | [] => None
  | e :: l' =>
      if f e then Some (0%nat, e)
      else (λ found, (S found.1, found.2)) <$> find_first f l'
  end.

Fixpoint contains_dquote (s : string) : bool :=
  match s with
  | EmptyString => false
  | String c rest =>
      (if decide (c = dquote_char) then true else false) || contains_dquote rest
  end.

(** Line 74: [property.xpath('./value')[0].text = value]. *)
Definition set_value_text (v : string) (property : element) : result element :=
  match find_first (has_tag "value") (children property) with
  | Some (j, value_element) =>
      Ok (set_children (<[j := set_text (Some v) value_element]> (children property))
            property)
  | None => Raise IndexError
  end.

(** Lines 76-83: the new [property] element. *)
Definition new_property (name : string) (value : option string) : element :=
  set_children [new_element "name" (Some name); new_element "value" value]
    (new_element "property" None).

(** Lines 68-83, one turn of the loop, on the children of the root.  The
    name is pasted between double quotes into the XPath expression, where
    a string literal has no escape: a name with a double quote ends the
    literal early and the expression is rejected (names made up so that the
    rest is again an expression are not modelled). *)
Definition apply_property (name : string) (value : option string)
    (props : list element) : result (list element) :=
  if contains_dquote name then Raise XPathEvalError
  else
    match find_first (is_property_named name) props with
    | Some (i, property) =>
        match value with
        | None => Ok (delete i props)
        | Some v =>
            if decide (v = EmptyString) then Ok (delete i props)
            else
              rbind (set_value_text v property) (λ property',
                Ok (<[i := property']> props))
        end
    | None => Ok (props ++ [new_property name value])
    end.



End Xml.

(** ** The node, its cluster and the world around them *)

Module Dse.

Abbreviation environ := (gmap string string).

Inductive signal := SIGTERM | SIGKILL.

(** What a file holds, as its reader sees it: the document that
    [yaml.load] returns, the tree that [etree.parse] returns, or plain
    text. *)
Inductive content :=
  | Yaml (doc : value)
  | XmlTree (root : Xml.element)
  | Text (s : string).

(** The operations on the world outside the interpreter, in the order in
    which they are attempted. *)
Inductive event :=
  | EvRead (p : fspath)
  | EvWrite (p : fspath)
  | EvRemove (p : fspath)
  | EvMakedirs (p : fspath)
  | EvCopy (src dst : fspath)
  | EvCopyDirectory (src dst : fspath)
  | EvCopyTree (src dst : fspath)
  | EvChmodExec (p : fspath)
  | EvReplaceInFile (p : fspath) (pattern replacement : string)
  | EvPrint (line : string)
  | EvSignal (pid : Z) (sig : signal)
  | EvWaitExit (pid : Z)
  | EvPopen (args : list string) (env : option environ)
  | EvDrainStdout (verbose : bool)
  | EvSleep (milliseconds : Z)
  | EvMarkLog (node_name : string)
  | EvWatchLogFor (node_name pattern : string)
  | EvWatchLogForAlive (watcher watched : string) (from_mark : nat)
  | EvWatchLogForDeath (watcher watched : string) (from_mark : nat)
  | EvUpdateConfig
  | EvGetVersion.

Record cluster := {
  cluster_path : fspath;               (* cluster.get_path() *)
  authn : string;                      (* cluster.authn *)
  hasOpscenter : bool;                 (* cluster.hasOpscenter() *)
  cluster_dse_config_options : dict;   (* cluster._dse_config_options *)
  nodes : list (string * option Z)     (* cluster.nodes: name and recorded pid *)
}.

(** The attributes of a node that the methods below only read. *)
Record node := {
  name : string;
  the_cluster : cluster;
  path : fspath;                       (* self.get_path() *)
  install_dir : fspath;                (* self.get_install_dir() *)
  network_interfaces : gmap string (option (string * Z));
  jmx_port : Z;
  dse_env : environ                    (* common.make_dse_env(install_dir, path) *)
}.

(** The file system, the processes, and the attributes of the node that
    the methods assign: [workload], [pid], and [_dse_config_options], which
    is [None] as long as the attribute does not exist. *)
Record world := {
  files : gmap fspath content;
  dirs : gset fspath;
  live : gset Z;
  busy : gset (string * Z);
  logs : gmap string nat;
  ccm_config : gmap string string;     (* common.get_config() *)
  launch_pid : option Z;
  workload : option (list string);
  pid : option Z;
  dse_config_options : option dict;
  trace : list event
}.

Definition set_files (f : gmap fspath content → gmap fspath content) (w : world) : world :=
  {| files := f (files w); dirs := dirs w; live := live w; busy := busy w;
     logs := logs w; ccm_config := ccm_config w; launch_pid := launch_pid w;
     workload := workload w; pid := pid w;
     dse_config_options := dse_config_options w; trace := trace w |}.

Definition set_dirs (f : gset fspath → gset fspath) (w : world) : world :=
  {| files := files w; dirs := f (dirs w); live := live w; busy := busy w;
     logs := logs w; ccm_config := ccm_config w; launch_pid := launch_pid w;
     workload := workload w; pid := pid w;
     dse_config_options := dse_config_options w; trace := trace w |}.

Definition set_live (f : gset Z → gset Z) (w : world) : world :=
  {| files := files w; dirs := dirs w; live := f (live w); busy := busy w;
     logs := logs w; ccm_config := ccm_config w; launch_pid := launch_pid w;
     workload := workload w; pid := pid w;
     dse_config_options := dse_config_options w; trace := trace w |}.

Definition set_workload_attr (x : option (list string)) (w : world) : world :=
  {| files := files w; dirs := dirs w; live := live w; busy := busy w;
     logs := logs w; ccm_config := ccm_config w; launch_pid := launch_pid w;
     workload := x; pid := pid w;
     dse_config_options := dse_config_options w; trace := trace w |}.

Definition set_pid (x : option Z) (w : world) : world :=
  {| files := files w; dirs := dirs w; live := live w; busy := busy w;
     logs := logs w; ccm_config := ccm_config w; launch_pid := launch_pid w;
     workload := workload w; pid := x;
     dse_config_options := dse_config_options w; trace := trace w |}.

Definition set_dse_config_options (x : option dict) (w : world) : world :=
  {| files := files w; dirs := dirs w; live := live w; busy := busy w;
     logs := logs w; ccm_config := ccm_config w; launch_pid := launch_pid w;
     workload := workload w; pid := pid w;
     dse_config_options := x; trace := trace w |}.

Definition add_event (ev : event) (w : world) : world :=
  {| files := files w; dirs := dirs w; live := live w; busy := busy w;
     logs := logs w; ccm_config := ccm_config w; launch_pid := launch_pid w;
     workload := workload w; pid := pid w;
     dse_config_options := dse_config_options w; trace := trace w ++ [ev] |}.

(** *** The monad of the methods: state and exceptions *)

Definition M (A : Type) : Type := world → result A * world.

Definition ret {A} (a : A) : M A := λ w, (Ok a, w).

Definition raise {A} (e : exn) : M A := λ w, (Raise e, w).

Definition bind {A B} (m : M A) (k : A → M B) : M B := λ w,
  match m w with
  | (Ok a, w') => k a w'
  | (Raise e, w') => (Raise e, w')
  end.

Notation "'do' x <- m ; k" := (bind m (λ x, k))
  (at level 10, x name, m at level 100, k at level 200,
   format "'[v' 'do'  x  <-  m ; '/' k ']'").
Notation "m ;; k" := (bind m (λ _, k))
  (at level 100, k at level 200, right associativity).

(** [try: m except e: handler] *)
Definition try_except {A} (m : M A) (e : exn) (handler : M A) : M A := λ w,
  match m w with
  | (Raise e', w') => if decide (e' = e) then handler w' else (Raise e', w')
  | r => r
  end.

Definition get {A} (f : world → A) : M A := λ w, (Ok (f w), w).
Definition modify (f : world → world) : M unit := λ w, (Ok tt, f w).
Definition emit (ev : event) : M unit := modify (add_event ev).
Definition lift {A} (r : result A) : M A := λ w, (r, w).

Definition when (b : bool) (m : M unit) : M unit :=
  if b then m else ret tt.

Fixpoint for_each {A} (l : list A) (body : A → M unit) : M unit :=
  match l with
  | [] => ret tt
  | x :: l' => body x ;; for_each l' body
  end.


(** *** The file system and the processes *)

(** [os.path.exists] and [os.path.isdir] *)
Definition path_exists (p : fspath) : M bool :=
  get (λ w, bool_decide (p ∈ dirs w) || bool_decide (is_Some (files w !! p))).

Definition isdir (p : fspath) : M bool :=
  get (λ w, bool_decide (p ∈ dirs w)).

Definition parent (p : fspath) : fspath := removelast p.

(** The proper prefixes of a path, the root first. *)
Definition ancestors (p : fspath) : list fspath :=
  (λ i, take i p) <$> seq 0 (length p).

(** [open(p, 'r')] and the reading of the whole file. *)
Definition read_file (p : fspath) : M content :=
  emit (EvRead p) ;;
  do found <- get (λ w, files w !! p);
  match found with
  | Some c => ret c
  | None => raise IOError
  end.

(** [open(p, 'w')] and the writing of the whole file: the directory of [p]
    has to exist, and [p] must not be a directory. *)
Definition write_file (p : fspath) (c : content) : M unit :=
  emit (EvWrite p) ;;
  do ok <- get (λ w, bool_decide (parent p ∈ dirs w) && negb (bool_decide (p ∈ dirs w)));
  if ok then modify (set_files <[p := c]>) else raise IOError.

(** [os.remove(p)] *)
Definition remove_file (p : fspath) : M unit :=
  emit (EvRemove p) ;;
  do found <- get (λ w, files w !! p);
  match found with
  | Some _ => modify (set_files (delete p))
  | None => raise OSError
  end.

(** [os.makedirs(p)] *)
Definition makedirs (p : fspath) : M unit :=
  emit (EvMakedirs p) ;;
  do taken <- path_exists p;
  do blocked <- get (λ w, existsb (λ q, bool_decide (is_Some (files w !! q))) (ancestors p));
  if taken || blocked then raise OSError
  else modify (set_dirs (λ d, d ∪ list_to_set (ancestors p) ∪ {[p]})).

(** [os.kill(pid, sig)]: a live process that is sent [SIGTERM] or
    [SIGKILL] exits; signalling a process that is not there is an error. *)
Definition kill (p : Z) (sig : signal) : M unit :=
  emit (EvSignal p sig) ;;
  do alive <- get (λ w, bool_decide (p ∈ live w));
  if alive then modify (set_live (λ l, l ∖ {[p]})) else raise OSError.

(** [shutil.copy(src, dst)] where [dst] may be a directory. *)
Definition shutil_copy (src dst : fspath) : M unit :=
  emit (EvCopy src dst) ;;
  do found <- get (λ w, files w !! src);
  match found with
  | None => raise IOError
  | Some c =>
      do into_dir <- isdir dst;
      if into_dir then
        match last src with
        | Some base => modify (set_files <[dst ++ [base] := c]>)
        | None => raise IOError
        end
      else
        do ok <- isdir (parent dst);
        if ok then modify (set_files <[dst := c]>) else raise IOError
  end.

(** [os.chmod(p, os.stat(p).st_mode | stat.S_IEXEC)]; the permission bits
    are not part of the world. *)
Definition chmod_exec (p : fspath) : M unit :=
  do there <- path_exists p;
  if there then emit (EvChmodExec p) else raise OSError.

(** [rest] when [p] is [dir ++ rest]. *)
Definition strip_prefix (dir p : fspath) : option fspath :=
  if decide (take (length dir) p = dir) then Some (drop (length dir) p) else None.

(** The name of [p] when [p] lies directly in [dir]. *)
Definition child_name (dir p : fspath) : option string :=
  match strip_prefix dir p with
  | Some [name] => Some name
  | _ => None
  end.

Definition copy_children (src dst : fspath) (fs : gmap fspath content)
    : gmap fspath content :=
  foldr (λ pc acc,
           match child_name src pc.1 with
           | Some name => <[dst ++ [name] := pc.2]> acc
           | None => acc
           end) fs (map_to_list fs).

(** Modelled from the spec: [common.copy_directory] of ccmlib/common.py,
    the "directory-copy primitive" of §6, which is not among the sources:
    every regular file that lies directly in [src] is copied into the
    directory [dst], over a file of the same name. *)
Definition copy_directory (src dst : fspath) : M unit :=
  emit (EvCopyDirectory src dst) ;;
  do src_ok <- isdir src;
  do dst_ok <- isdir dst;
  if src_ok && dst_ok then modify (set_files (copy_children src dst))
  else raise OSError.

Definition move_below (src dst p : fspath) : option fspath :=
  (λ rest, dst ++ rest) <$> strip_prefix src p.

(** [shutil.copytree(src, dst)]: [dst] must not exist; it is created with
    its missing parents, and all that is below [src] is copied. *)
Definition copytree (src dst : fspath) : M unit :=
  emit (EvCopyTree src dst) ;;
  do src_ok <- isdir src;
  do taken <- path_exists dst;
  if negb src_ok || taken then raise OSError
  else
    modify (λ w,
      set_dirs (λ d, d ∪ list_to_set (ancestors dst)
                       ∪ list_to_set (omap (move_below src dst) (elements d)))
        (set_files (λ fs,
           foldr (λ pc acc,
                    match move_below src dst pc.1 with
                    | Some q => <[q := pc.2]> acc
                    | None => acc
                    end) fs (map_to_list fs)) w)).

(** Modelled from the spec: [common.check_socket_available] of
    ccmlib/common.py, which is not among the sources: a bound interface
    "must be free of conflicting listeners" (§4.2). *)
Definition check_socket_available (itf : string * Z) : M unit :=
  do in_use <- get (λ w, bool_decide (itf ∈ busy w));
  if in_use then raise UnavailableSocketError else ret tt.

(** [subprocess.Popen(args, env=env)] followed by [p.wait()]. *)
Definition popen_wait (args : list string) (env : environ) : M unit :=
  emit (EvPopen args (Some env)).

(** *** The base class [Node] and the helpers of ccmlib/common.py *)

(** Modelled from the spec: [Node.__init__] of ccmlib/node.py, which is
    not among the sources.  The identity and the bindings of §3 are the
    fields of [node]; a new object has no process id and no workload, and
    the base class, which knows nothing of DSE, does not create the
    attribute [_dse_config_options]. *)
Definition Node_init : M unit :=
  modify (λ w, set_dse_config_options None (set_workload_attr None (set_pid None w))).

(** Modelled from the spec: [Node.is_running] of ccmlib/node.py: "checked
    via liveness of the recorded pid" (§4.2). *)
Definition is_running : M bool :=
  get (λ w, match pid w with
            | Some p => bool_decide (p ∈ live w)
            | None => false
            end).

Definition peer_is_running (peer : string * option Z) : M bool :=
  get (λ w, match peer.2 with
            | Some p => bool_decide (p ∈ live w)
            | None => false
            end).

(** Modelled from the spec: [Node.mark_log], the "saved log-read offset"
    of the glossary. *)
Definition mark_log (node_name : string) : M nat :=
  emit (EvMarkLog node_name) ;;
  get (λ w, default 0%nat (logs w !! node_name)).

(** The running nodes among [peers], each with the mark of its log (line
    119 of [start]). *)
Fixpoint collect_marks (peers : list (string * option Z)) : M (list (string * nat)) :=
  match peers with
  | [] => ret []
  | peer :: peers' =>
      do up <- peer_is_running peer;
      if up then
        do mark <- mark_log peer.1;
        do rest <- collect_marks peers';
        ret ((peer.1, mark) :: rest)
      else collect_marks peers'
  end.

(** Modelled from the spec: [Node._update_config] of ccmlib/node.py, which
    writes the node's own record of its settings; it leaves the DSE
    configuration files alone. *)
Definition _update_config : M unit := emit EvUpdateConfig.

(** Modelled from the spec: [Node._update_pid]: the "process id is durably
    recorded" (§4.2) from the pid file of the launcher. *)
Definition _update_pid (self : node) : M unit :=
  let pidfile := path self ++ ["cassandra.pid"] in
  do c <- try_except (read_file pidfile) IOError
            (raise (NodeError ("Problem starting node " +:+ name self)));
  match c with
  | Text s =>
      match int_of_string (readline s) with
      | Some p => modify (set_pid (Some p))
      | None => raise ValueError
      end
  | _ => raise ValueError
  end.

(** Modelled from the spec: [Node.stop] of ccmlib/node.py (§4.4): it
    "signals the underlying process (gentle = cooperative shutdown signal
    with timeout, else forceful kill), optionally blocking until the
    process and (if requested) peer nodes' logs confirm departure".  The
    result tells whether there was a process to stop. *)
Definition Node_stop (self : node) (wait wait_other_notice gently : bool) : M bool :=
  do running <- is_running;
  if running then
    do recorded <- get pid;
    match recorded with
    | Some p =>
        do marks <-
          (if wait_other_notice
           then collect_marks
                  (filter (λ peer, peer.1 ≠ name self) (nodes (the_cluster self)))
           else ret []);
        kill p (if gently then SIGTERM else SIGKILL) ;;
        for_each marks (λ pm, emit (EvWatchLogForDeath pm.1 (name self) pm.2)) ;;
        when wait (emit (EvWaitExit p)) ;;
        ret true
    | None => ret false
    end
  else ret false.

(** [Node.get_bin_dir] *)
Definition get_bin_dir (self : node) : fspath := path self ++ ["bin"].

(** Modelled from the spec: [common.get_dse_cassandra_version], which
    reads the version out of the install directory. *)
Definition get_cassandra_version : M unit := emit EvGetVersion.

(** Modelled from the spec: [common.replace_in_file]; the text of the
    launcher script is not part of the world. *)
Definition replace_in_file (p : fspath) (pattern replacement : string) : M unit :=
  emit (EvReplaceInFile p pattern replacement).

(** Modelled from the spec: the launcher, started with [-p pidfile],
    records the id of the node process in [pidfile] when the node comes
    up; [launch_pid] is that id, or [None] when the node does not come
    up. *)
Definition popen_launcher (args : list string) (env : environ) (pidfile : fspath)
    : M unit :=
  emit (EvPopen args (Some env)) ;;
  do started <- get launch_pid;
  match started with
  | Some p =>
      modify (λ w, set_live (λ l, l ∪ {[p]})
                     (set_files <[pidfile := Text (pretty p)]> w))
  | None => ret tt
  end.

(** *** The methods of [DseNode] *)

Record start_options := {
  join_ring : bool;
  no_wait : bool;
  verbose : bool;
  update_pid : bool;
  wait_other_notice : bool;
  replace_token : option string;
  replace_address : option string;
  jvm_args : list string;
  wait_for_binary_proto : bool;
  profile_options : option (gmap string string);
  use_jna : bool;
  debug : bool
}.

(** The default values of the parameters of [start]. *)
Definition default_options : start_options :=
  {| join_ring := true; no_wait := false; verbose := false; update_pid := true;
     wait_other_notice := false; replace_token := None; replace_address := None;
     jvm_args := []; wait_for_binary_proto := false; profile_options := None;
     use_jna := false; debug := false |}.

Definition agent_dir (self : node) : fspath := path self ++ ["datastax-agent"].

Definition krb5_conf (self : node) : string :=
  render (cluster_path (the_cluster self) ++ ["krb5.conf"]).

(** Lines 368-372 *)
Definition _copy_agent (self : node) : M unit :=
  let agent_source := install_dir self ++ ["datastax-agent"] in
  let agent_target := path self ++ ["datastax-agent"] in
  do source_there <- path_exists agent_source;
  do target_there <- path_exists agent_target;
  if source_there && negb target_there then copytree agent_source agent_target
  else ret tt.

(** Lines 22-27.  Line 25 binds the empty mapping to a local name, which
    is lost when the constructor returns. *)
Definition __init__ (self : node) : M unit :=
  Node_init ;;
  get_cassandra_version ;;
  let _dse_config_options : dict := ∅ in
  when (hasOpscenter (the_cluster self)) (_copy_agent self).

(** Lines 53-55 *)
Definition set_workload (new_workload : option (list string)) : M unit :=
  modify (set_workload_attr new_workload) ;;
  _update_config.

(** Lines 397-412.  The file is opened, and so created, before the
    interface is looked up. *)
Definition _write_agent_address_yaml (self : node) (agent_dir : fspath) : M unit :=
  let address_yaml := agent_dir ++ ["conf"; "address.yaml"] in
  do there <- path_exists address_yaml;
  if there then ret tt
  else
    write_file address_yaml (Text EmptyString) ;;
    match network_interfaces self !! "thrift" with
    | None => raise KeyError
    | Some None => raise TypeError
    | Some (Some (ip, port)) =>
        modify (set_files <[address_yaml := Text (unlines [
          "stomp_interface: 127.0.0.1";
          "local_interface: " +:+ ip;
          "agent_rpc_interface: " +:+ ip;
          "agent_rpc_broadcast_address: " +:+ ip;
          "cassandra_conf: "
            +:+ render (path self ++ ["resources"; "cassandra"; "conf"; "cassandra.yaml"]);
          "cassandra_install: " +:+ render (path self);
          "cassandra_logs: " +:+ render (path self ++ ["logs"]);
          "thrift_port: " +:+ pretty port;
          "jmx_port: " +:+ pretty (jmx_port self)])]>)
    end.

(** Lines 414-426 *)
Definition _write_agent_log4j_properties (agent_dir : fspath) : M unit :=
  write_file (agent_dir ++ ["conf"; "log4j.properties"]) (Text (unlines [
    "log4j.rootLogger=INFO,R";
    "log4j.logger.org.apache.http=OFF";
    "log4j.logger.org.eclipse.jetty.util.log=WARN,R";
    "log4j.appender.R=org.apache.log4j.RollingFileAppender";
    "log4j.appender.R.maxFileSize=20MB";
    "log4j.appender.R.maxBackupIndex=5";
    "log4j.appender.R.layout=org.apache.log4j.PatternLayout";
    "log4j.appender.R.layout.ConversionPattern=%5p [%t] %d{ISO8601} %m%n";
    "log4j.appender.R.File=./log/agent.log"])).

(** Lines 374-380.  The agent is started without [env=], and nothing is
    read from it. *)
Definition _start_agent (self : node) : M unit :=
  let agent_dir := agent_dir self in
  do there <- path_exists agent_dir;
  if there then
    _write_agent_address_yaml self agent_dir ;;
    _write_agent_log4j_properties agent_dir ;;
    let binary := agent_dir ++ ["bin"; "datastax-agent"] in
    do found <- path_exists binary;
    if found then emit (EvPopen [render binary] None) else raise OSError
  else ret tt.

(** Lines 382-395.  [pidfile] is assigned under the first [if] only and
    read by the second one whatever the first one did: it is [None] here
    as long as the local name is not bound. *)
Definition _stop_agent (self : node) : M unit :=
  let agent_dir := agent_dir self in
  do dir_there <- path_exists agent_dir;
  let pidfile := if dir_there then Some (agent_dir ++ ["datastax-agent.pid"]) else None in
  match pidfile with
  | None => raise UnboundLocalError
  | Some pidfile =>
      do file_there <- path_exists pidfile;
      if file_there then
        do c <- read_file pidfile;
        do p <- match c with
                | Text s =>
                    match int_of_string (readline s) with
                    | Some p => ret p
                    | None => raise ValueError
                    end
                | _ => raise ValueError
                end;
        try_except (kill p SIGKILL) OSError (ret tt) ;;
        remove_file pidfile
      else ret tt
  end.

(** Lines 228-232 *)
Definition stop (self : node) (wait wait_other_notice gently : bool) : M bool :=
  do stopped <- Node_stop self wait wait_other_notice gently;
  when (hasOpscenter (the_cluster self)) (_stop_agent self) ;;
  ret stopped.

(** ['tag' in self.workload], the workload being the collection of tags
    of §3. *)
Definition has_workload (tag : string) (workload : list string) : bool :=
  bool_decide (tag ∈ workload).

Definition launcher_pattern : string :=
  "cassandra_parms=" +:+ dquote +:+
  "-Dlog4j.configuration=log4j-server.properties -Dlog4j.defaultInitOverride=true".

(** Lines 87-226, on a POSIX system ([common.is_win()] is false). *)
Definition start (self : node) (o : start_options) : M unit :=
  do running <- is_running;
  if running then raise (NodeError (name self +:+ " is already running"))
  else
    for_each (map_to_list (network_interfaces self)).*2 (λ itf,
      match itf, replace_address o with
      | Some address, None => check_socket_available address
      | _, _ => ret tt
      end) ;;
    do marks <- (if wait_other_notice o
                 then collect_marks (nodes (the_cluster self))
                 else ret []);
    let cdir := install_dir self in
    let launch_bin := cdir ++ ["bin"; "dse"] in
    shutil_copy launch_bin (get_bin_dir self) ;;
    let launch_bin := path self ++ ["bin"; "dse"] in
    match profile_options o with
    | Some profile =>
        do config <- get ccm_config;
        match config !! "yourkit_agent" with
        | None =>
            raise (NodeError ("Cannot enable profile. You need to set 'yourkit_agent'"
                              +:+ " to the path of your agent in a ~/.ccm/config"))
        | Some agent =>
            let cmd := "-agentpath:" +:+ agent in
            let cmd := match profile !! "options" with
                       | Some options => cmd +:+ "=" +:+ options
                       | None => cmd
                       end in
            emit (EvPrint cmd) ;;
            replace_in_file launch_bin launcher_pattern
              ("    " +:+ launcher_pattern +:+ " " +:+ cmd +:+ dquote)
        end
    | None => ret tt
    end ;;
    chmod_exec launch_bin ;;
    let env := dse_env self in
    let pidfile := path self ++ ["cassandra.pid"] in
    let args := [render launch_bin; "cassandra"] in
    do tags <- get workload;
    let args :=
      match tags with
      | Some tags =>
          args ++ (if has_workload "hadoop" tags then ["-t"] else [])
               ++ (if has_workload "solr" tags then ["-s"] else [])
               ++ (if has_workload "spark" tags then ["-k"] else [])
               ++ (if has_workload "cfs" tags then ["-c"] else [])
      | None => args
      end in
    do env <-
      (if debug o then
         match network_interfaces self !! "thrift" with
         | None => raise KeyError
         | Some None => raise TypeError
         | Some (Some (ip, port)) =>
             match last_char ip with
             | None => raise IndexError
             | Some c =>
                 match Ascii.is_nat c with
                 | None => raise ValueError
                 | Some d =>
                     ret (<["JVM_EXTRA_OPTS" :=
                              "-Xrunjdwp:transport=dt_socket,address="
                              +:+ pretty (2345 + Z.of_nat d)
                              +:+ ",server=y,suspend=n"]> env)
                 end
             end
         end
       else ret env);
    let args := args ++ ["-p"; render pidfile;
                         "-Dcassandra.join_ring=" +:+ str_of_bool (join_ring o)] in
    let args := match replace_token o with
                | Some token => args ++ ["-Dcassandra.replace_token=" +:+ token]
                | None => args
                end in
    let args := match replace_address o with
                | Some address => args ++ ["-Dcassandra.replace_address=" +:+ address]
                | None => args
                end in
    let args := if use_jna o then args
                else args ++ ["-Dcassandra.boot_without_jna=true"] in
    let env :=
      if decide (authn (the_cluster self) = "kerberos") then
        <["KRB5_CONFIG" := krb5_conf self]>
          (<["JVM_OPTS" := "-Djava.security.krb5.conf=" +:+ krb5_conf self]> env)
      else env in
    let args := args ++ jvm_args o in
    popen_launcher args env pidfile ;;
    when (update_pid o) (
      (if no_wait o then emit (EvSleep 2000) else emit (EvDrainStdout (verbose o))) ;;
      _update_pid self ;;
      do running <- is_running;
      if running then ret tt
      else raise (NodeError ("Error starting node " +:+ name self))) ;;
    for_each marks (λ pm, emit (EvWatchLogForAlive pm.1 (name self) pm.2)) ;;
    when (wait_for_binary_proto o) (
      emit (EvWatchLogFor (name self) "Starting listening for CQL clients") ;;
      emit (EvSleep 200)) ;;
    when (hasOpscenter (the_cluster self)) (_start_agent self).





Definition dse_conf_dir (self : node) : fspath := path self ++ ["resources"; "dse"; "conf"].
Definition dse_yaml (self : node) : fspath := dse_conf_dir self ++ ["dse.yaml"].
Definition install_dse_conf (self : node) : fspath :=
  install_dir self ++ ["resources"; "dse"; "conf"].

(** Lines 333-360.  A file that is not a YAML document does not load; a
    document that is not a mapping does not take the assignment of line
    338; [self._dse_config_options] is read after the one of the cluster. *)
Definition _update_dse_yaml (self : node) : M unit :=
  let conf_file := dse_yaml self in
  do c <- read_file conf_file;
  do data <- match c with
             | Yaml (VMap data) => ret data
             | Yaml _ => raise TypeError
             | _ => raise YAMLError
             end;
  let cluster_options := cluster_dse_config_options (the_cluster self) in
  do attribute <- get dse_config_options;
  match attribute with
  | None => raise AttributeError
  | Some node_options =>
      do data <- lift (Merge.update_dse_yaml_data (render (path self ++ ["keys"]))
                         cluster_options node_options data);
      write_file conf_file (Yaml (VMap data))
  end.

(** Lines 313-318 *)
Definition import_dse_config_files (self : node) : M unit :=
  _update_config ;;
  do there <- isdir (dse_conf_dir self);
  when (negb there) (makedirs (dse_conf_dir self)) ;;
  copy_directory (install_dse_conf self) (dse_conf_dir self) ;;
  _update_dse_yaml self.

(** Line 60: [self._dse_config_options[k] = v] *)
Definition set_dse_config_option (k : key) (v : value) : M unit :=
  do attribute <- get dse_config_options;
  match attribute with
  | None => raise AttributeError
  | Some options => modify (set_dse_config_options (Some (<[k := v]> options)))
  end.

(** Lines 57-61 *)
Definition set_dse_configuration_options (self : node) (values : option dict) : M unit :=
  match values with
  | Some values =>
      for_each (map_to_list values) (λ kv, set_dse_config_option kv.1 kv.2)
  | None => ret tt
  end ;;
  import_dse_config_files self.


(** *** The directories of a node and the copies of its configuration *)

(** Lines 35-39 *)
Definition get_conf_dir (self : node) : fspath :=
  path self ++ ["resources"; "cassandra"; "conf"].

(** Lines 362-366 *)
Definition _get_directories (self : node) : gmap string fspath :=
  foldl (λ dirs i, <[i := path self ++ [i]]> dirs) ∅
    ["data"; "commitlogs"; "saved_caches"; "logs"; "bin"; "keys"; "resources"].

(** [os.mkdir(p)]: the parent has to be a directory and [p] must not
    exist; the trace records it as the making of a directory. *)
Definition os_mkdir (p : fspath) : M unit :=
  emit (EvMakedirs p) ;;
  do taken <- path_exists p;
  do parent_ok <- isdir (parent p);
  if taken || negb parent_ok then raise OSError
  else modify (set_dirs (λ d, d ∪ {[p]})).

Definition products : list string :=
  ["dse"; "cassandra"; "hadoop"; "sqoop"; "hive"; "tomcat"; "spark"; "shark";
   "mahout"; "pig"].

Definition product_conf (root : fspath) (product : string) : fspath :=
  root ++ ["resources"; product; "conf"].

(** Lines 322-326, the body of the loop. *)
Definition copy_product_config (self : node) (product : string) : M unit :=
  do there <- isdir (product_conf (path self) product);
  when (negb there) (makedirs (product_conf (path self) product)) ;;
  copy_directory (product_conf (install_dir self) product)
    (product_conf (path self) product) ;;
  when (bool_decide (product = "cassandra"))
    (os_mkdir (product_conf (path self) product ++ ["triggers"])).

(** Lines 320-326 *)
Definition copy_config_files (self : node) : M unit :=
  for_each products (copy_product_config self).

(** Lines 328-331 *)
Definition import_bin_files (self : node) : M unit :=
  makedirs (path self ++ ["resources"; "cassandra"; "bin"]) ;;
  copy_directory (install_dir self ++ ["bin"]) (get_bin_dir self) ;;
  copy_directory (install_dir self ++ ["resources"; "cassandra"; "bin"])
    (path self ++ ["resources"; "cassandra"; "bin"]).

(** *** The tool runners *)


(** Lines 243-281: [hadoop], [hive], [pig], [sqoop] and [spark] differ in
    the name of the tool only. *)
Definition dse_tool (tool : string) (self : node) (options : list string) : M unit :=
  let env := dse_env self in
  let dse := install_dir self ++ ["bin"; "dse"] in
  let args := [render dse; tool] in
  let args := args ++ options in
  popen_wait args env.

Definition hive := dse_tool "hive".
Definition pig := dse_tool "pig".
Definition sqoop := dse_tool "sqoop".
Definition spark := dse_tool "spark".

End Dse.

(** ** What the properties are stated with *)

Module MergeSpec.
Import Merge.

(** What one turn of the loop makes of the entry [name] of the document. *)
Definition override_entry (override : value) (existing : option value)
    : result (option value) :=
  match override with
  | VNone => Ok None
  | _ =>
      match existing with
      | Some (VMap e) =>
          rbind (copy_options e override) (λ merged, Ok (Some (VMap merged)))
      | _ => Ok (Some override)
      end
  end.

(** The entry [name] after the merge, in the cases the loop is written
    for: a deletion marker removes it, a mapping laid over a mapping adds
    its own entries to it, and any other value takes its place. *)
Definition one_level_entry (override existing : option value) : option value :=
  match override with
  | None => existing
  | Some VNone => None
  | Some (VMap o) =>
      match existing with
      | Some (VMap e) => Some (VMap (o ∪ e))
      | _ => Some (VMap o)
      end
  | Some v => Some v
  end.

(** The merge of one entry as the specification words it (§4.1): "if the
    override value is the deletion marker, remove the key; else if both
    existing value and override value are mappings, merge recursively
    key-by-key; else replace wholesale". *)
Fixpoint spec_merge_entry (override : value) (existing : option value)
    {struct override} : option value :=
  match override with
  | VNone => None
  | VMap o =>
      match existing with
      | Some (VMap e) =>
          Some (VMap (map_fold (λ k v acc, partial_alter (spec_merge_entry v) k acc) e o))
      | _ => Some override
      end
  | _ => Some override
  end.

(** The structured merge does to every overridden entry what the
    specification says. *)
Definition merges_as_specified (keys_dir : string)
    (cluster_options node_options data : dict) : Prop :=
  ∃ data',
    update_dse_yaml_data keys_dir cluster_options node_options data = Ok data' ∧
    ∀ name v,
      full_options cluster_options node_options !! name = Some v →
      data' !! name =
        spec_merge_entry v (<[system_key_directory := VStr keys_dir]> data !! name).

(** [v[k]] when [v] is a mapping. *)
Definition lookup_in (k : key) (v : value) : option value :=
  match v with
  | VMap m => m !! k
  | _ => None
  end.

(** [v[k1][k2]...] *)
Fixpoint at_path (names : list key) (v : value) : option value :=
  match names with
  | [] => Some v
  | name :: names' =>
      match lookup_in name v with
      | Some x => at_path names' x
      | None => None
      end
  end.

End MergeSpec.

Module Traces.
Import Dse.







(** Every run of [m] adds to the trace only events that satisfy [P], and
    a value it returns satisfies [Φ]. *)
Definition emits {A} (P : event → Prop) (Φ : A → Prop) (m : M A) : Prop :=
  ∀ w, ∃ evs,
    trace (m w).2 = trace w ++ evs ∧ Forall P evs ∧
    ∀ a, (m w).1 = Ok a → Φ a.


(** A run of [m] that returns has started a process with an environment
    of its own. *)
Definition spawns {A} (m : M A) : Prop :=
  ∀ w a, (m w).1 = Ok a →
    ∃ evs args env,
      trace (m w).2 = trace w ++ evs ∧ EvPopen args (Some env) ∈ evs.

End Traces.

Module Samples.
Import Dse.

(** A document with a mapping two levels down, and overrides for it. *)
Definition nested_document : dict :=
  {[ KStr "a" := VMap {[ KStr "b" := VMap {[ KStr "c" := VInt 1; KStr "d" := VInt 2 ]} ]} ]}.
Definition nested_override : dict :=
  {[ KStr "a" := VMap {[ KStr "b" := VMap {[ KStr "c" := VInt 3 ]} ]} ]}.
Definition plain_override : dict := {[ KStr "a" := VInt 5 ]}.

Definition sample_document : dict :=
  {[ KStr "a" := VMap {[ KStr "x" := VInt 1 ]}; KStr "timeout" := VInt 30 ]}.
Definition sample_override : dict :=
  {[ KStr "a" := VMap {[ KStr "y" := VInt 2 ]}; KStr "timeout" := VNone ]}.

Definition sample_cluster (mode : string) : cluster :=
  {| cluster_path := ["ccm"; "test"];
     authn := mode;
     hasOpscenter := true;
     cluster_dse_config_options := ∅;
     nodes := [("node1", Some 4242)] |}.

Definition sample_node (mode : string) : node :=
  {| name := "node1";
     the_cluster := sample_cluster mode;
     path := ["ccm"; "test"; "node1"];
     install_dir := ["opt"; "dse"];
     network_interfaces := {[ "thrift" := Some ("127.0.0.1", 9160) ]};
     jmx_port := 7100;
     dse_env := {[ "DSE_HOME" := "/opt/dse" ]} |}.

(** A node that runs as process 4242, without agent directory. *)
Definition running_world : world :=
  {| files := {[ ["ccm"; "test"; "node1"; "cassandra.pid"] := Text "4242" ]};
     dirs := list_to_set [[]; ["ccm"]; ["ccm"; "test"]; ["ccm"; "test"; "node1"]];
     live := {[ 4242 ]};
     busy := ∅;
     logs := ∅;
     ccm_config := ∅;
     launch_pid := None;
     workload := None;
     pid := Some 4242;
     dse_config_options := Some ∅;
     trace := [] |}.

(** The same node with an agent that runs as process 77. *)
Definition agent_world : world :=
  set_dirs (λ d, d ∪ {[ ["ccm"; "test"; "node1"; "datastax-agent"] ]})
    (set_live (λ l, l ∪ {[ 77 ]})
       (set_files <[ ["ccm"; "test"; "node1"; "datastax-agent"; "datastax-agent.pid"]
                     := Text "77" ]> running_world)).

(** An installation of DSE whose [dse.yaml] says [timeout: 30], and a node
    that has not been started yet; its override removes [timeout]. *)
Definition install_world : world :=
  {| files := {[ ["opt"; "dse"; "bin"; "dse"] := Text "#!/bin/sh";
                 ["opt"; "dse"; "resources"; "dse"; "conf"; "dse.yaml"]
                   := Yaml (VMap {[ KStr "timeout" := VInt 30 ]}) ]};
     dirs := list_to_set [[]; ["opt"]; ["opt"; "dse"]; ["opt"; "dse"; "bin"];
                          ["opt"; "dse"; "resources"];
                          ["opt"; "dse"; "resources"; "dse"];
                          ["opt"; "dse"; "resources"; "dse"; "conf"];
                          ["ccm"]; ["ccm"; "test"]; ["ccm"; "test"; "node1"];
                          ["ccm"; "test"; "node1"; "bin"]];
     live := ∅;
     busy := ∅;
     logs := ∅;
     ccm_config := ∅;
     launch_pid := Some 4242;
     workload := Some ["solr"; "spark"];
     pid := None;
     dse_config_options := Some {[ KStr "timeout" := VNone ]};
     trace := [] |}.

(** The world that the constructor leaves, and the one after the call of
    [set_dse_configuration_options] with the empty mapping. *)
Definition fresh_world : world := (__init__ (sample_node "none") install_world).2.

Definition after_empty_options : result unit * world :=
  set_dse_configuration_options (sample_node "none") (Some ∅) fresh_world.

Definition merged_sample : dict :=
  {[ Merge.system_key_directory := VStr "/ccm/test/node1/keys" ]}.

(** The environments that a trace hands to the processes it starts. *)
Definition spawned_environments (tr : list event) : list environ :=
  omap (λ ev, match ev with EvPopen _ env => env | _ => None end) tr.

End Samples.

(** ** What the further properties are stated with *)

Module Invariants.
Import Dse.

(** Every run of [m] from a world that satisfies [I] ends in a world that
    satisfies [I], adds to the trace only events that satisfy [P], and a
    value it returns satisfies [Φ]. *)
Definition hoare {A} (I : world → Prop) (P : event → Prop) (Φ : A → Prop)
    (m : M A) : Prop :=
  ∀ w, I w → ∃ evs,
    trace (m w).2 = trace w ++ evs ∧ Forall P evs ∧ I (m w).2 ∧
    ∀ a, (m w).1 = Ok a → Φ a.

(** A number, a boolean or a non-empty string. *)
Definition plain_scalar (v : value) : bool :=
  match v with
  | VBool _ | VInt _ => true
  | VStr s => negb (bool_decide (s = EmptyString))
  | _ => false
  end.

(** No path is both a file and a directory. *)
Definition consistent (w : world) : Prop :=
  ∀ p, p ∈ dirs w → files w !! p = None.

(** What [start] hands to the launcher of a node whose workload is
    [tags]: the launcher and its verb, the flags of the workload, the pid
    file, the options of the call, and at the end the arguments of the
    caller.  There is one flag for each of the four tags that is in [tags],
    in a fixed order. *)
Definition launch_args_ok (self : node) (o : start_options) (tags : list string)
    (ev : event) : Prop :=
  match ev with
  | EvPopen args (Some _) =>
      ∃ flags,
        args = [render (path self ++ ["bin"; "dse"]); "cassandra"] ++ flags ++
               ["-p"; render (path self ++ ["cassandra.pid"]);
                "-Dcassandra.join_ring=" +:+ str_of_bool (join_ring o)] ++
               option_list ((λ token, "-Dcassandra.replace_token=" +:+ token)
                              <$> replace_token o) ++
               option_list ((λ address, "-Dcassandra.replace_address=" +:+ address)
                              <$> replace_address o) ++
               (if use_jna o then [] else ["-Dcassandra.boot_without_jna=true"]) ++
               jvm_args o ∧
        sublist flags ["-t"; "-s"; "-k"; "-c"] ∧
        ("-t" ∈ flags ↔ "hadoop" ∈ tags) ∧
        ("-s" ∈ flags ↔ "solr" ∈ tags) ∧
        ("-k" ∈ flags ↔ "spark" ∈ tags) ∧
        ("-c" ∈ flags ↔ "cfs" ∈ tags)
  | _ => True
  end.

(** The option that lets a debugger attach at the port [2345 + d]. *)
Definition debug_options (d : nat) : string :=
  "-Xrunjdwp:transport=dt_socket,address=" +:+ pretty (2345 + Z.of_nat d)
  +:+ ",server=y,suspend=n".

Definition debug_env_ok (d : nat) (ev : event) : Prop :=
  match ev with
  | EvPopen _ (Some env) => env !! "JVM_EXTRA_OPTS" = Some (debug_options d)
  | _ => True
  end.


(** The events that start a process. *)
Definition is_spawn (ev : event) : Prop :=
  match ev with
  | EvPopen _ _ => True
  | _ => False
  end.

(** An installation with the directories of all its products. *)
Definition full_install_world : world :=
  set_dirs (λ d, d ∪ list_to_set
                       (["opt"; "dse"; "resources"; "cassandra"; "bin"] ::
                        ["opt"; "dse"; "resources"; "cassandra"] ::
                        ((λ product, ["opt"; "dse"; "resources"; product]) <$> products) ++
                        (product_conf ["opt"; "dse"] <$> products)))
    Samples.install_world.

(** An installation that comes with an agent. *)
Definition agent_install_world : world :=
  set_dirs (λ d, d ∪ list_to_set [["opt"; "dse"; "datastax-agent"];
                                  ["opt"; "dse"; "datastax-agent"; "bin"]])
    (set_files <[ ["opt"; "dse"; "datastax-agent"; "bin"; "datastax-agent"]
                  := Text "#!/bin/sh" ]> Samples.install_world).

(** A node whose agent has an address descriptor that was written by
    hand. *)
Definition edited_agent_world : world :=
  set_files <[ ["ccm"; "test"; "node1"; "datastax-agent"; "conf"; "address.yaml"]
               := Text "stomp_interface: 10.0.0.1" ]> Samples.agent_world.

(** A node without thrift interface, with the directories of an agent. *)
Definition headless_node : node :=
  {| name := "node1";
     the_cluster := Samples.sample_cluster "none";
     path := ["ccm"; "test"; "node1"];
     install_dir := ["opt"; "dse"];
     network_interfaces := {[ "thrift" := None ]};
     jmx_port := 7100;
     dse_env := ∅ |}.

Definition agent_conf_world : world :=
  set_dirs (λ d, d ∪ {[ ["ccm"; "test"; "node1"; "datastax-agent"; "conf"] ]})
    Samples.agent_world.

(** The options of a start with the profiler, and of one with the
    debugger. *)
Definition profiling_options : start_options :=
  {| join_ring := true; no_wait := false; verbose := false; update_pid := true;
     wait_other_notice := false; replace_token := None; replace_address := None;
     jvm_args := []; wait_for_binary_proto := false; profile_options := Some ∅;
     use_jna := false; debug := false |}.

Definition debugging_options : start_options :=
  {| join_ring := true; no_wait := false; verbose := false; update_pid := true;
     wait_other_notice := false; replace_token := None; replace_address := None;
     jvm_args := ["-Xmx1G"]; wait_for_binary_proto := false; profile_options := None;
     use_jna := false; debug := true |}.

(** The sample node after the import of its configuration. *)
Definition imported_world : world :=
  (import_dse_config_files (Samples.sample_node "none") Samples.install_world).2.

End Invariants.


(** * Properties *)

(** ** Running the monad *)

Section monad_facts.
Import Dse.

Lemma bind_ok {A B} (m : M A) (k : A → M B) w a w' :
  m w = (Ok a, w') → bind m k w = k a w'.
Proof. unfold bind. by intros ->. Qed.

Lemma bind_raise {A B} (m : M A) (k : A → M B) w e w' :
  m w = (Raise e, w') → bind m k w = (Raise e, w').
Proof. unfold bind. by intros ->. Qed.
End monad_facts.

(** One step of a run whose outcome is known. *)
Ltac step := erewrite bind_ok by (first [eassumption | reflexivity]); cbv beta.

Ltac monad_unfold :=
  unfold Dse.when, Dse.emit, Dse.try_except, Dse.bind, Dse.ret, Dse.raise,
    Dse.get, Dse.modify, Dse.lift in *.

(** A decidable fact about a given world, by evaluation. *)
Ltac by_compute :=
  lazymatch goal with
  | |- ?P => apply (bool_decide_eq_true_1 P); vm_compute; reflexivity
  end.

(** ** The structured merge *)

Section merge_facts.
Import Merge MergeSpec.

Lemma copy_map_options (e o : dict) :
  map_fold (λ option x acc, <[option := x]> acc) e o = o ∪ e.
Proof.
  rewrite map_fold_foldr.
  rewrite <- (list_to_map_to_list o) at 2.
  rewrite <- foldr_insert_union.
  apply foldr_ext; [by intros [] ?|done..].
Qed.

Lemma apply_override_entry name v data :
  apply_override name v data =
    rbind (override_entry v (data !! name)) (λ r, Ok (partial_alter (λ _, r) name data)).
Proof.
  unfold apply_override, override_entry.
  destruct v; try done;
    destruct (data !! name) as [[]|]; simpl; try done;
    try (destruct (copy_options _ _); done).
  - by destruct (decide _).
  - by destruct (copy_seq_options _ _ _).
Qed.

Lemma for_each_option_sound items : ∀ data data',
  NoDup items.*1 →
  for_each_option items data = Ok data' →
  (∀ k v, (k, v) ∈ items → override_entry v (data !! k) = Ok (data' !! k)) ∧
  (∀ k, k ∉ items.*1 → data' !! k = data !! k).
Proof.
  induction items as [|[name v] items IH]; intros data data' Hnd Hrun; simpl in *.
  - injection Hrun as <-. split; [intros ?? []%elem_of_nil | done].
  - apply NoDup_cons in Hnd as [Hname Hnd].
    rewrite apply_override_entry in Hrun.
    destruct (override_entry v (data !! name)) as [r|] eqn:Hentry; [|done].
    simpl in Hrun. destruct (IH _ _ Hnd Hrun) as [IH1 IH2]. split.
    + intros k w [[= -> ->]|Hin]%elem_of_cons.
      * rewrite Hentry, IH2 by done. by rewrite lookup_partial_alter_eq.
      * rewrite <- (IH1 _ _ Hin). rewrite lookup_partial_alter_ne; [done|].
        intros ->. apply Hname. apply list_elem_of_fmap. by exists (k, w).
    + intros k [Hk1 Hk2]%not_elem_of_cons.
      rewrite IH2 by done. by rewrite lookup_partial_alter_ne.
Qed.

Lemma for_each_option_complete items : ∀ data data',
  NoDup items.*1 →
  (∀ k v, (k, v) ∈ items → override_entry v (data !! k) = Ok (data' !! k)) →
  (∀ k, k ∉ items.*1 → data' !! k = data !! k) →
  for_each_option items data = Ok data'.
Proof.
  induction items as [|[name v] items IH]; intros data data' Hnd Hin Hout; simpl in *.
  - f_equal. apply map_eq. intros k. symmetry. apply Hout. apply not_elem_of_nil.
  - apply NoDup_cons in Hnd as [Hname Hnd].
    rewrite apply_override_entry, (Hin name v) by left. simpl.
    apply IH; [done|..].
    + intros k w Hkw. rewrite lookup_partial_alter_ne; [apply Hin; by right|].
      intros ->. apply Hname. apply list_elem_of_fmap. by exists (k, w).
    + intros k Hk. destruct (decide (name = k)) as [->|Hne].
      * by rewrite lookup_partial_alter_eq.
      * rewrite lookup_partial_alter_ne by done. apply Hout.
        by apply not_elem_of_cons.
Qed.

Lemma foldl_insert_union (pairs : list (key * value)) : ∀ d : dict,
  foldl (λ d kv, <[kv.1 := kv.2]> d) d pairs = list_to_map (reverse pairs) ∪ d.
Proof.
  induction pairs as [|[k v] pairs IH]; intros d; simpl.
  - by rewrite (left_id_L ∅ (∪)).
  - rewrite IH, reverse_cons, list_to_map_app. simpl.
    rewrite insert_empty, <- (assoc_L (∪)). f_equal.
    apply insert_union_singleton_l.
Qed.

Lemma dict_of_items_foldr pairs :
  dict_of_items pairs = list_to_map (reverse pairs).
Proof.
  unfold dict_of_items. by rewrite foldl_insert_union, (right_id_L ∅ (∪)).
Qed.

Lemma full_options_union (c n : dict) : full_options c n = n ∪ c.
Proof.
  unfold full_options. rewrite dict_of_items_foldr, reverse_app, list_to_map_app.
  rewrite <- (list_to_map_to_list n) at 2. rewrite <- (list_to_map_to_list c) at 2.
  f_equal; symmetry; (apply list_to_map_proper;
    [apply NoDup_fst_map_to_list | symmetry; apply reverse_Permutation]).
Qed.
End merge_facts.

Section merge_theorems.
Import Merge MergeSpec.

Lemma options_items_member (c n : dict) k v :
  (k, v) ∈ map_to_list (full_options c n) ↔ (n ∪ c) !! k = Some v.
Proof. by rewrite elem_of_map_to_list, full_options_union. Qed.

Lemma update_dse_yaml_data_sound keys c n D D' k :
  update_dse_yaml_data keys c n D = Ok D' →
  match (n ∪ c) !! k with
  | Some v =>
      override_entry v (<[system_key_directory := VStr keys]> D !! k) = Ok (D' !! k)
  | None => D' !! k = <[system_key_directory := VStr keys]> D !! k
  end.
Proof.
  unfold update_dse_yaml_data. intros Hrun.
  apply for_each_option_sound in Hrun as [Hin Hout]; [|apply NoDup_fst_map_to_list].
  destruct ((n ∪ c) !! k) as [v|] eqn:Hk.
  - apply Hin. by apply options_items_member.
  - apply Hout. rewrite full_options_union.
    intros ([k' v] & -> & Hin')%list_elem_of_fmap.
    apply elem_of_map_to_list in Hin'. simpl in Hk. congruence.
Qed.

Lemma update_dse_yaml_data_complete keys c n D D' :
  (∀ k, match (n ∪ c) !! k with
        | Some v =>
            override_entry v (<[system_key_directory := VStr keys]> D !! k)
              = Ok (D' !! k)
        | None => D' !! k = <[system_key_directory := VStr keys]> D !! k
        end) →
  update_dse_yaml_data keys c n D = Ok D'.
Proof.
  intros Hall. unfold update_dse_yaml_data.
  apply for_each_option_complete; [apply NoDup_fst_map_to_list|..].
  - intros k v Hin%options_items_member. specialize (Hall k). by rewrite Hin in Hall.
  - intros k Hk. specialize (Hall k).
    destruct ((n ∪ c) !! k) as [v|] eqn:Hin; [|done].
    exfalso. apply Hk. apply list_elem_of_fmap. exists (k, v).
    split; [done|]. by apply options_items_member.
Qed.

(** The entries that an iterable adds do not depend on the mapping they
    are added to. *)
Lemma copy_seq_options_union rest src : ∀ e m,
  copy_seq_options rest src e = Ok m →
  ∃ g : dict, ∀ e', copy_seq_options rest src e' = Ok (g ∪ e').
Proof.
  induction rest as [|x rest IH]; intros e m Hrun; simpl in *.
  - exists ∅. intros e'. by rewrite (left_id_L ∅ (∪)).
  - destruct x as [|b|i| | |]; try done.
    + destruct (seq_getitem src (Z.b2z b)) as [x|]; [simpl in *|done].
      destruct (IH _ _ Hrun) as [g Hg]. exists (g ∪ {[KInt (Z.b2z b) := x]}).
      intros e'. by rewrite Hg, <- (assoc_L (∪)), <- insert_union_singleton_l.
    + destruct (seq_getitem src i) as [x|]; [simpl in *|done].
      destruct (IH _ _ Hrun) as [g Hg]. exists (g ∪ {[KInt i := x]}).
      intros e'. by rewrite Hg, <- (assoc_L (∪)), <- insert_union_singleton_l.
Qed.

Lemma copy_options_union e v m :
  copy_options e v = Ok m →
  ∃ g : dict, ∀ e', copy_options e' v = Ok (g ∪ e').
Proof.
  destruct v as [| | |s|l|o]; simpl; try done.
  - destruct (decide _); [|done]. intros _. exists ∅.
    intros e'. by rewrite (left_id_L ∅ (∪)).
  - apply copy_seq_options_union.
  - intros _. exists o. intros e'. by rewrite copy_map_options.
Qed.

Lemma copy_options_idempotent e v m :
  copy_options e v = Ok m → copy_options m v = Ok m.
Proof.
  intros Hrun. destruct (copy_options_union _ _ _ Hrun) as [g Hg].
  rewrite Hg in Hrun. injection Hrun as <-.
  by rewrite Hg, (assoc_L (∪)), (idemp_L (∪)).
Qed.

Lemma override_entry_idempotent v x y :
  override_entry v x = Ok y → override_entry v y = Ok y.
Proof.
  assert (∀ o : dict, copy_options o (VMap o) = Ok o) as Hself.
  { intros o. simpl. by rewrite copy_map_options, (idemp_L (∪)). }
  destruct v as [|b|i|s|l|o]; simpl.
  - by intros [= <-].
  - destruct x as [[]|]; simpl; by intros [= <-].
  - destruct x as [[]|]; simpl; by intros [= <-].
  - destruct x as [[| | | | |e]|]; simpl; try by intros [= <-].
    destruct (decide _) as [->|]; simpl; [|done]. by intros [= <-].
  - destruct x as [[| | | | |e]|]; simpl; try by intros [= <-].
    destruct (copy_seq_options l l e) as [m|] eqn:Hrun; simpl; [|done].
    intros [= <-]. simpl.
    pose proof (copy_options_idempotent e (VSeq l) m Hrun) as Hagain.
    simpl in Hagain. by rewrite Hagain.
  - destruct x as [[| | | | |e]|]; simpl; intros [= <-]; simpl;
      rewrite ?copy_map_options; try (by rewrite (idemp_L (∪)));
      by rewrite (assoc_L (∪)), (idemp_L (∪)).
Qed.

(** C3.  Idempotence of the structured merge: to run lines 338-357 on the
    document that a first run has produced, with the same overrides, gives
    that document again; and when the first run raises, so does the
    pair of runs. *)
Theorem update_dse_yaml_idempotent keys c n D :
  rbind (update_dse_yaml_data keys c n D) (update_dse_yaml_data keys c n)
    = update_dse_yaml_data keys c n D.
Proof.
  destruct (update_dse_yaml_data keys c n D) as [D1|e] eqn:Hfirst; [simpl|done].
  apply update_dse_yaml_data_complete. intros k.
  pose proof (update_dse_yaml_data_sound _ _ _ _ _ k Hfirst) as Hk.
  destruct (decide (k = system_key_directory)) as [->|Hne].
  - rewrite lookup_insert_eq in *. done.
  - rewrite lookup_insert_ne in * by done.
    destruct ((n ∪ c) !! k); [|done]. by eapply override_entry_idempotent.
Qed.

(** C1, as the code has it.  When no plain value is laid over an existing
    mapping, the structured merge returns a document, and every entry of it
    is given by [one_level_entry]: an entry whose override is the deletion
    marker is gone (whether it was there or not); a mapping laid over a
    mapping adds its entries to it, one level deep, each of them replacing
    the entry of the same name wholesale; any other override replaces the
    existing value or is inserted when the key was missing; an entry without
    override is kept. *)
Theorem update_dse_yaml_one_level keys (c n D : dict) :
  (∀ k v e,
     full_options c n !! k = Some v →
     <[system_key_directory := VStr keys]> D !! k = Some (VMap e) →
     v = VNone ∨ ∃ o, v = VMap o) →
  ∃ D',
    update_dse_yaml_data keys c n D = Ok D' ∧
    ∀ k, D' !! k =
           one_level_entry (full_options c n !! k)
             (<[system_key_directory := VStr keys]> D !! k).
Proof.
  intros Hcompat.
  exists (merge one_level_entry (full_options c n)
            (<[system_key_directory := VStr keys]> D)).
  assert (∀ k,
    merge one_level_entry (full_options c n)
      (<[system_key_directory := VStr keys]> D) !! k =
    one_level_entry (full_options c n !! k)
      (<[system_key_directory := VStr keys]> D !! k)) as Hlookup.
  { intros k. rewrite lookup_merge.
    by destruct (full_options c n !! k), (<[_ := _]> D !! k). }
  split; [|done].
  apply update_dse_yaml_data_complete. intros k. rewrite Hlookup.
  specialize (Hcompat k). rewrite full_options_union in *.
  destruct ((n ∪ c) !! k) as [v|]; [|done].
  destruct (<[_ := _]> D !! k) as [x|] eqn:Hx.
  - destruct x as [| | | | |e]; try (by destruct v).
    destruct (Hcompat v e eq_refl eq_refl) as [->|[o ->]]; [done|].
    simpl. by rewrite copy_map_options.
  - by destruct v.
Qed.

(** C2.  A key that both the cluster and the node override: the layered
    overrides hold the value of the node for it; the value of the cluster
    has no part in the merged document; the entry of the merged document
    is what the loop makes of the value of the node, which is that very
    value when it is not the deletion marker and the document has no
    mapping there.  In particular, cluster [{a: 1}] and node [{a: 2}] give
    [a: 2]. *)
Theorem node_overrides_win keys (c n D : dict) k vc vn :
  c !! k = Some vc →
  n !! k = Some vn →
  full_options c n !! k = Some vn ∧
  update_dse_yaml_data keys c n D = update_dse_yaml_data keys (delete k c) n D ∧
  (∀ D', update_dse_yaml_data keys c n D = Ok D' →
     override_entry vn (<[system_key_directory := VStr keys]> D !! k) = Ok (D' !! k)) ∧
  (∀ D', update_dse_yaml_data keys c n D = Ok D' →
     vn ≠ VNone →
     (∀ e, <[system_key_directory := VStr keys]> D !! k ≠ Some (VMap e)) →
     D' !! k = Some vn) ∧
  (∀ a, (∀ e, <[system_key_directory := VStr keys]> D !! a ≠ Some (VMap e)) →
     update_dse_yaml_data keys {[a := VInt 1]} {[a := VInt 2]} D
       = Ok (<[a := VInt 2]> (<[system_key_directory := VStr keys]> D))).
Proof.
  intros Hc Hn.
  assert ((n ∪ c) !! k = Some vn) as Hk by (by apply lookup_union_Some_l).
  assert (∀ D', update_dse_yaml_data keys c n D = Ok D' →
     override_entry vn (<[system_key_directory := VStr keys]> D !! k) = Ok (D' !! k))
    as Hentry.
  { intros D' Hrun. pose proof (update_dse_yaml_data_sound _ _ _ _ _ k Hrun) as H.
    by rewrite Hk in H. }
  split_and!.
  - by rewrite full_options_union.
  - unfold update_dse_yaml_data. do 2 f_equal. rewrite !full_options_union.
    apply map_eq. intros j. rewrite !lookup_union.
    destruct (decide (j = k)) as [->|Hne].
    + rewrite Hn, lookup_delete_eq. by destruct (c !! k).
    + by rewrite lookup_delete_ne.
  - done.
  - intros D' Hrun Hvn Hplain. specialize (Hentry D' Hrun).
    destruct (<[_ := _]> D !! k) as [[| | | | |e]|];
      try (destruct vn; simpl in Hentry; congruence).
    by destruct (Hplain e).
  - intros a Hplain. apply update_dse_yaml_data_complete. intros j.
    destruct (decide (j = a)) as [->|Hne].
    + rewrite lookup_union, !lookup_singleton_eq, lookup_insert_eq. simpl.
      destruct (<[_ := _]> D !! a) as [[| | | | |e]|]; try done.
      by destruct (Hplain e).
    + rewrite lookup_union, !lookup_singleton_ne by done. simpl.
      by rewrite lookup_insert_ne.
Qed.
End merge_theorems.

Section merge_examples.
Import Merge MergeSpec Samples.

Lemma structured_merge_counterexample :
  ¬ merges_as_specified "/n/keys" ∅ nested_override nested_document ∧
  ¬ merges_as_specified "/n/keys" ∅ plain_override nested_document.
Proof.
  split; intros (D' & Hrun & Hall).
  - assert (rbind (update_dse_yaml_data "/n/keys" ∅ nested_override nested_document)
              (λ d, Ok (at_path [KStr "a"; KStr "b"; KStr "d"] (VMap d)))
            = Ok None) as Hcode by (vm_compute; reflexivity).
    rewrite Hrun in Hcode. simpl in Hcode.
    rewrite (Hall (KStr "a") (VMap {[ KStr "b" := VMap {[ KStr "c" := VInt 3 ]} ]}))
      in Hcode by (vm_compute; reflexivity).
    vm_compute in Hcode. discriminate Hcode.
  - assert (update_dse_yaml_data "/n/keys" ∅ plain_override nested_document
            = Raise TypeError) as Hcode by (vm_compute; reflexivity).
    rewrite Hrun in Hcode. discriminate Hcode.
Qed.

Lemma update_dse_yaml_one_level_witness :
  ∃ D',
    update_dse_yaml_data "/n/keys" ∅ sample_override sample_document = Ok D' ∧
    ∀ k, D' !! k =
           one_level_entry (full_options ∅ sample_override !! k)
             (<[system_key_directory := VStr "/n/keys"]> sample_document !! k).
Proof.
  apply update_dse_yaml_one_level. intros k v e Hv He.
  destruct (decide (k = KStr "a")) as [->|Ha].
  - vm_compute in Hv. injection Hv as <-. right. by eexists.
  - exfalso. unfold sample_document in He.
    destruct (decide (system_key_directory = k)) as [<-|Hs].
    + rewrite lookup_insert_eq in He. discriminate He.
    + rewrite lookup_insert_ne in He by exact Hs.
      rewrite lookup_insert_ne in He by congruence.
      destruct (decide (KStr "timeout" = k)) as [<-|Ht].
      * rewrite lookup_singleton_eq in He. discriminate He.
      * rewrite lookup_singleton_ne in He by exact Ht. discriminate He.
Defined.


Lemma node_overrides_win_witness :
  ({[ KStr "a" := VInt 1 ]} : dict) !! KStr "a" = Some (VInt 1) ∧
  ({[ KStr "a" := VInt 2 ]} : dict) !! KStr "a" = Some (VInt 2) ∧
  full_options {[ KStr "a" := VInt 1 ]} {[ KStr "a" := VInt 2 ]} !! KStr "a"
    = Some (VInt 2) ∧
  update_dse_yaml_data "/n/keys" {[ KStr "a" := VInt 1 ]} {[ KStr "a" := VInt 2 ]} ∅
    = Ok (<[KStr "a" := VInt 2]> (<[system_key_directory := VStr "/n/keys"]> ∅)).
Proof.
  pose proof (node_overrides_win "/n/keys" {[ KStr "a" := VInt 1 ]}
                {[ KStr "a" := VInt 2 ]} ∅ (KStr "a") (VInt 1) (VInt 2)
                (lookup_singleton_eq _ _) (lookup_singleton_eq _ _))
    as (Hfull & _ & _ & _ & Hexample).
  split_and!; [apply lookup_singleton_eq..|exact Hfull|].
  apply Hexample. intros e.
  rewrite lookup_insert_ne by (intros [=]). rewrite lookup_empty. intros [=].
Defined.
End merge_examples.

(** ** The XML property lists *)

Section xml_theorems.
Import Xml.


Lemma find_first_none f (l : list element) :
  Forall (λ q, f q = false) l → find_first f l = None.
Proof.
  intros Hl. induction Hl as [|q l Hq _ IH]; simpl; [done|]. by rewrite Hq, IH.
Qed.

(** A [property] element with a [name] child whose text is the non-empty
    [name] is one that the XPath expression selects. *)
Lemma is_property_named_plain name p c :
  name ≠ EmptyString →
  tag p = "property" → c ∈ children p → tag c = "name" → text c = Some name →
  is_property_named name p = true.
Proof.
  intros Hname Hp Hc Htag Htext. unfold is_property_named, has_tag, has_name.
  rewrite bool_decide_eq_true_2 by done. simpl.
  apply existsb_exists. exists c. split; [by apply list_elem_of_In|].
  unfold has_tag, text_equals.
  by rewrite !bool_decide_eq_true_2.
Qed.


End xml_theorems.

(** ** Stopping and starting *)

Section life_cycle.
Import Dse Traces Samples.

(** C7.  A node whose recorded process is alive: [start] raises the
    [NodeError] "... is already running" and the world is the one it was
    called in: no file is touched, no process is started, nothing is added
    to the trace. *)
Theorem start_already_running self o w p :
  pid w = Some p →
  p ∈ live w →
  start self o w = (Raise (NodeError (name self +:+ " is already running")), w).
Proof.
  intros Hpid Hlive. unfold start. unfold bind at 1. unfold is_running, get.
  rewrite Hpid. by rewrite bool_decide_eq_true_2.
Qed.

Lemma _stop_agent_without_directory self w :
  agent_dir self ∉ dirs w →
  files w !! agent_dir self = None →
  _stop_agent self w = (Raise UnboundLocalError, w).
Proof.
  intros Hdir Hfile. unfold _stop_agent, path_exists. monad_unfold.
  rewrite bool_decide_eq_false_2 by done.
  rewrite Hfile. rewrite bool_decide_eq_false_2 by (by intros [? [=]]). done.
Qed.









End life_cycle.

(** ** Invariants of the trace *)

Section trace_logic.
Import Dse Traces.
Context {P : event → Prop}.

Lemma emits_ret {A} (Φ : A → Prop) a : Φ a → emits P Φ (ret a).
Proof.
  intros Ha w. exists []. simpl. rewrite app_nil_r.
  split_and!; [done|constructor|]. by intros ? [= <-].
Qed.

Lemma emits_raise {A} (Φ : A → Prop) e : emits P Φ (raise e).
Proof.
  intros w. exists []. simpl. rewrite app_nil_r. split_and!; [done|constructor|done].
Qed.

Lemma emits_get {A} (Φ : A → Prop) (f : world → A) :
  (∀ w, Φ (f w)) → emits P Φ (get f).
Proof.
  intros Hf w. exists []. simpl. rewrite app_nil_r.
  split_and!; [done|constructor|]. by intros ? [= <-].
Qed.

Lemma emits_modify (Φ : unit → Prop) (f : world → world) :
  (∀ w, trace (f w) = trace w) → Φ tt → emits P Φ (modify f).
Proof.
  intros Hf Htt w. exists []. simpl. rewrite app_nil_r, Hf.
  split_and!; [done|constructor|]. by intros [] _.
Qed.

Lemma emits_emit (Φ : unit → Prop) ev : P ev → Φ tt → emits P Φ (emit ev).
Proof.
  intros Hev Htt w. exists [ev]. simpl.
  split_and!; [done|by constructor|]. by intros [] _.
Qed.

Lemma emits_lift {A} (Φ : A → Prop) (r : result A) :
  (∀ a, r = Ok a → Φ a) → emits P Φ (lift r).
Proof.
  intros Hr w. exists []. simpl. rewrite app_nil_r. split_and!; [done|constructor|done].
Qed.

Lemma emits_bind {A B} (Φ : A → Prop) (Ψ : B → Prop) (m : M A) (k : A → M B) :
  emits P Φ m → (∀ a, Φ a → emits P Ψ (k a)) → emits P Ψ (bind m k).
Proof.
  intros Hm Hk w. destruct (Hm w) as (evs1 & Ht1 & He1 & Ha).
  unfold bind. destruct (m w) as [[a|e] w1]; simpl in *.
  - destruct (Hk a (Ha a eq_refl) w1) as (evs2 & Ht2 & He2 & Hb).
    exists (evs1 ++ evs2). rewrite Ht2, Ht1, <- app_assoc.
    split_and!; [done|by apply Forall_app|done].
  - exists evs1. split_and!; [done|done|done].
Qed.

Lemma emits_bind_true {A B} (Ψ : B → Prop) (m : M A) (k : A → M B) :
  emits P (λ _, True) m → (∀ a, emits P Ψ (k a)) → emits P Ψ (bind m k).
Proof. intros Hm Hk. apply (emits_bind (λ _, True)); auto. Qed.

Lemma emits_try {A} (Φ : A → Prop) (m handler : M A) e :
  emits P Φ m → emits P Φ handler → emits P Φ (try_except m e handler).
Proof.
  intros Hm Hh w. destruct (Hm w) as (evs1 & Ht1 & He1 & Ha).
  unfold try_except. destruct (m w) as [[a|e'] w1]; simpl in *.
  - by exists evs1.
  - destruct (decide (e' = e)).
    + destruct (Hh w1) as (evs2 & Ht2 & He2 & Hb).
      exists (evs1 ++ evs2). rewrite Ht2, Ht1, <- app_assoc.
      split_and!; [done|by apply Forall_app|done].
    + exists evs1. split_and!; [done|done|done].
Qed.

Lemma emits_when (b : bool) (m : M unit) :
  emits P (λ _, True) m → emits P (λ _, True) (when b m).
Proof. intros Hm. destruct b; [done|]. by apply emits_ret. Qed.

Lemma emits_for_each {A} (l : list A) (body : A → M unit) :
  (∀ x, emits P (λ _, True) (body x)) → emits P (λ _, True) (for_each l body).
Proof.
  intros Hbody. induction l as [|x l IH]; simpl.
  - by apply emits_ret.
  - apply emits_bind_true; [apply Hbody|]. by intros _.
Qed.

Lemma emits_collect_marks peers :
  (∀ n, P (EvMarkLog n)) → emits P (λ _, True) (collect_marks peers).
Proof.
  intros HP. induction peers as [|peer peers IH]; simpl.
  - by apply emits_ret.
  - apply emits_bind_true; [by apply emits_get|]. intros [].
    + apply emits_bind_true.
      { unfold mark_log. apply emits_bind_true; [by apply emits_emit|].
        intros _. by apply emits_get. }
      intros mark. apply emits_bind_true; [done|]. intros rest. by apply emits_ret.
    + done.
Qed.
End trace_logic.

Section spawn_logic.
Import Dse Traces.

Lemma spawns_raise {A} e : spawns (@raise A e).
Proof. by intros w a. Qed.

Lemma spawns_emit args env : spawns (emit (EvPopen args (Some env))).
Proof.
  intros w [] _. exists [EvPopen args (Some env)], args, env. split; [done|]. by left.
Qed.

Lemma spawns_bind_r {A B} (m : M A) (k : A → M B) :
  emits (λ _, True) (λ _, True) m → (∀ a, spawns (k a)) → spawns (bind m k).
Proof.
  intros Hm Hk w b. destruct (Hm w) as (evs1 & Ht1 & _).
  unfold bind. destruct (m w) as [[a|e] w1]; simpl in *; [|done].
  intros Hb. destruct (Hk a w1 b Hb) as (evs2 & args & env & Ht2 & Hin).
  exists (evs1 ++ evs2), args, env. rewrite Ht2, Ht1, <- app_assoc.
  split; [done|]. apply elem_of_app. by right.
Qed.

Lemma spawns_bind_l {A B} (m : M A) (k : A → M B) :
  spawns m → (∀ a, emits (λ _, True) (λ _, True) (k a)) → spawns (bind m k).
Proof.
  intros Hm Hk w b. specialize (Hm w).
  unfold bind. destruct (m w) as [[a|e] w1]; simpl in *; [|done].
  destruct (Hm a eq_refl) as (evs1 & args & env & Ht1 & Hin).
  destruct (Hk a w1) as (evs2 & Ht2 & _). intros _.
  exists (evs1 ++ evs2), args, env. rewrite Ht2, Ht1, <- app_assoc.
  split; [done|]. apply elem_of_app. by left.
Qed.
End spawn_logic.

Import Dse Traces Samples Merge MergeSpec.


Ltac emits_leaf :=
  first
    [ apply emits_ret; exact I
    | apply emits_raise
    | apply emits_get; intros; exact I
    | apply emits_modify; [intros; reflexivity | exact I]
    | apply emits_emit; [exact I | exact I]
    | apply emits_lift; intros; exact I ].


(** The same walk, for the invariant that holds of every event. *)
Ltac emits_walk :=
  first
    [ emits_leaf
    | apply emits_bind_true; [|intros ?]
    | apply emits_try
    | apply emits_when
    | apply emits_for_each; intros ?
    | apply emits_collect_marks; intros; exact I
    | lazymatch goal with
      | |- emits _ _ (match ?x with _ => _ end) => destruct x
      end
    | progress unfold check_socket_available, shutil_copy, chmod_exec,
        replace_in_file, popen_launcher, _update_pid, is_running, isdir,
        path_exists, read_file, write_file, _start_agent,
        _write_agent_address_yaml, _write_agent_log4j_properties
    | progress cbv zeta ].

Ltac spawns_step :=
  first
    [ apply spawns_raise
    | lazymatch goal with
      | |- spawns (bind (popen_launcher _ _ _) _) =>
          apply spawns_bind_l;
            [unfold popen_launcher; apply spawns_bind_l;
               [apply spawns_emit | intros ?; repeat emits_walk]
            | intros ?; repeat emits_walk]
      | |- spawns (bind _ _) =>
          apply spawns_bind_r; [repeat emits_walk | intros ?]
      | |- spawns (match ?x with _ => _ end) => destruct x
      end
    | progress cbv zeta ].

Section credentials.



Lemma start_spawns self o : spawns (start self o).
Proof. unfold start. repeat spawns_step. Qed.

End credentials.

(** ** The import of the configuration *)


Section config_import.
Import Merge MergeSpec.

Lemma child_name_Some (dir p : fspath) (name : string) :
  child_name dir p = Some name ↔ p = dir ++ [name].
Proof.
  unfold child_name, strip_prefix. split.
  - destruct (decide _) as [Htake|]; [|done].
    destruct (drop (length dir) p) as [|x [|]] eqn:Hdrop; try done.
    intros [= ->]. by rewrite <- (take_drop (length dir) p), Htake, Hdrop.
  - intros ->. rewrite take_app_length.
    destruct (decide (dir = dir)); [|done]. by rewrite drop_app_length.
Qed.

Lemma copy_children_fold (src dst : fspath) (fs : gmap fspath content)
    (name : string) (c : content) (l : list (fspath * content)) :
  fs !! (src ++ [name]) = Some c →
  (∀ p c', (p, c') ∈ l → fs !! p = Some c') →
  foldr (λ pc acc,
           match child_name src pc.1 with
           | Some name => <[dst ++ [name] := pc.2]> acc
           | None => acc
           end) fs l !! (dst ++ [name])
  = if decide (src ++ [name] ∈ l.*1) then Some c else fs !! (dst ++ [name]).
Proof.
  intros Hc. induction l as [|[p c'] l IH]; intros Hl; simpl.
  - done.
  - specialize (IH (λ p c' Hin, Hl p c' (list_elem_of_further _ _ _ Hin))).
    destruct (child_name src p) as [name'|] eqn:Hchild.
    + apply child_name_Some in Hchild as ->.
      destruct (decide (name' = name)) as [->|Hne].
      * rewrite lookup_insert_eq, decide_True by (by left).
        rewrite <- Hc. symmetry. apply Hl. by left.
      * rewrite lookup_insert_ne by (by intros [= ->]%(inj (app dst))).
        rewrite IH. destruct (decide (src ++ [name] ∈ l.*1)) as [Hin|Hin].
        -- rewrite decide_True; [done|]. by right.
        -- rewrite decide_False; [done|].
           intros [[= ->]%(inj (app src))|?]%elem_of_cons; done.
    + rewrite IH. destruct (decide (src ++ [name] ∈ l.*1)) as [Hin|Hin].
      * rewrite decide_True; [done|]. by right.
      * rewrite decide_False; [done|].
        intros [Heq|?]%elem_of_cons; [|done].
        symmetry in Heq. apply child_name_Some in Heq. congruence.
Qed.

Lemma copy_children_lookup (src dst : fspath) (fs : gmap fspath content)
    (name : string) (c : content) :
  fs !! (src ++ [name]) = Some c →
  copy_children src dst fs !! (dst ++ [name]) = Some c.
Proof.
  intros Hc. unfold copy_children.
  rewrite (copy_children_fold src dst fs name c); [|done|].
  - rewrite decide_True; [done|].
    apply list_elem_of_fmap. exists (src ++ [name], c).
    split; [done|]. by apply elem_of_map_to_list.
  - intros p c' Hin. by apply elem_of_map_to_list.
Qed.

Lemma read_file_ok p w c :
  files w !! p = Some c → read_file p w = (Ok c, add_event (EvRead p) w).
Proof. intros Hc. unfold read_file. step. step. simpl. by rewrite Hc. Qed.

Lemma write_file_ok p c w :
  parent p ∈ dirs w → p ∉ dirs w →
  write_file p c w = (Ok tt, set_files <[p := c]> (add_event (EvWrite p) w)).
Proof.
  intros Hparent Hp. unfold write_file. step. step. simpl.
  by rewrite bool_decide_eq_true_2, bool_decide_eq_false_2.
Qed.

Lemma makedirs_ok p w :
  p ∉ dirs w → files w !! p = None →
  Forall (λ q, files w !! q = None) (ancestors p) →
  makedirs p w
    = (Ok tt, set_dirs (λ d, d ∪ list_to_set (ancestors p) ∪ {[p]})
                (add_event (EvMakedirs p) w)).
Proof.
  intros Hp Hfile Hfree. unfold makedirs, path_exists. step. step. step. simpl.
  rewrite bool_decide_eq_false_2 by done.
  rewrite Hfile, bool_decide_eq_false_2 by (by intros [? [=]]). simpl.
  replace (existsb _ _) with false; [done|].
  symmetry. apply not_true_is_false. intros (q & Hq & Hsome)%existsb_exists.
  apply list_elem_of_In in Hq. rewrite Forall_forall in Hfree.
  apply bool_decide_eq_true_1 in Hsome. rewrite (Hfree q Hq) in Hsome.
  by destruct Hsome.
Qed.

Lemma copy_directory_ok src dst w :
  src ∈ dirs w → dst ∈ dirs w →
  copy_directory src dst w
    = (Ok tt, set_files (copy_children src dst) (add_event (EvCopyDirectory src dst) w)).
Proof.
  intros Hsrc Hdst. unfold copy_directory, isdir. step. step. step. simpl.
  by rewrite !bool_decide_eq_true_2.
Qed.

Lemma _update_dse_yaml_ok self w base node_options merged :
  files w !! dse_yaml self = Some (Yaml (VMap base)) →
  dse_config_options w = Some node_options →
  dse_conf_dir self ∈ dirs w →
  dse_yaml self ∉ dirs w →
  update_dse_yaml_data (render (path self ++ ["keys"]))
    (cluster_dse_config_options (the_cluster self)) node_options base = Ok merged →
  _update_dse_yaml self w
    = (Ok tt, set_files <[dse_yaml self := Yaml (VMap merged)]>
                (add_event (EvWrite (dse_yaml self))
                   (add_event (EvRead (dse_yaml self)) w))).
Proof.
  intros Hfile Hattr Hdir Hnodir Hmerge. unfold _update_dse_yaml.
  rewrite (bind_ok _ _ _ _ _ (read_file_ok _ _ _ Hfile)).
  step. step. simpl. rewrite Hattr, Hmerge. step.
  apply write_file_ok; simpl; [|done].
  unfold dse_yaml, parent. by rewrite removelast_last.
Qed.

(** C8.  [import_dse_config_files] on a node whose attribute
    [_dse_config_options] exists, with the base document [base] in the
    install directory: the configuration directory of the node is made when
    it is missing, then the base files are copied into it, and only then
    is [dse.yaml] read, merged and written.  What is written is the merge
    of the overrides into the copied base, whatever the node had there
    before, and no key whose override is the deletion marker is left in
    it. *)
Theorem import_copies_then_merges self w base node_options merged :
  dse_config_options w = Some node_options →
  install_dse_conf self ∈ dirs w →
  files w !! (install_dse_conf self ++ ["dse.yaml"]) = Some (Yaml (VMap base)) →
  (dse_conf_dir self ∈ dirs w ∨
   ((dse_conf_dir self ∉ dirs w) ∧ files w !! (dse_conf_dir self) = None ∧
    Forall (λ q, files w !! q = None) (ancestors (dse_conf_dir self)))) →
  dse_yaml self ∉ dirs w →
  update_dse_yaml_data (render (path self ++ ["keys"]))
    (cluster_dse_config_options (the_cluster self)) node_options base = Ok merged →
  ∃ w' made,
    import_dse_config_files self w = (Ok tt, w') ∧
    files w' !! dse_yaml self = Some (Yaml (VMap merged)) ∧
    (∀ k, full_options (cluster_dse_config_options (the_cluster self)) node_options !! k
            = Some VNone → merged !! k = None) ∧
    (made = [] ∨ made = [EvMakedirs (dse_conf_dir self)]) ∧
    trace w' = trace w ++ [EvUpdateConfig] ++ made ++
                 [EvCopyDirectory (install_dse_conf self) (dse_conf_dir self);
                  EvRead (dse_yaml self); EvWrite (dse_yaml self)].
Proof.
  intros Hattr Hinstall Hbase Hconf Hnodir Hmerge.
  assert (∀ k, full_options (cluster_dse_config_options (the_cluster self))
                 node_options !! k = Some VNone → merged !! k = None) as Hdeleted.
  { intros k Hk. pose proof (update_dse_yaml_data_sound _ _ _ _ _ k Hmerge) as Hs.
    rewrite full_options_union in Hk. rewrite Hk in Hs. simpl in Hs. congruence. }
  unfold import_dse_config_files. step. step.
  destruct Hconf as [Hthere|(Hmissing & Hnofile & Hfree)].
  - simpl. rewrite bool_decide_eq_true_2 by done. simpl. step.
    erewrite bind_ok by (apply copy_directory_ok; simpl; done).
    erewrite _update_dse_yaml_ok; [|simpl..]; try eassumption.
    + eexists _, []. split; [reflexivity|]. simpl. split_and!; auto.
      * by rewrite lookup_insert_eq.
      * by rewrite <- !app_assoc.
    + by apply copy_children_lookup.
  - simpl. rewrite bool_decide_eq_false_2 by done. simpl.
    erewrite bind_ok by (apply makedirs_ok; simpl; done).
    assert (dse_yaml self ∉
              dirs w ∪ list_to_set (ancestors (dse_conf_dir self)) ∪ {[dse_conf_dir self]})
      as Hstill.
    { rewrite !elem_of_union, elem_of_list_to_set, elem_of_singleton.
      intros [[?|Hanc]|Heq]; [done|..].
      - unfold ancestors in Hanc. apply list_elem_of_fmap in Hanc as (i & Heq & Hi).
        apply (f_equal length) in Heq. unfold dse_yaml in Heq.
        rewrite length_app, length_take in Heq. simpl in Heq. lia.
      - apply (f_equal length) in Heq. unfold dse_yaml in Heq.
        rewrite length_app in Heq. simpl in Heq. lia. }
    erewrite bind_ok
      by (apply copy_directory_ok; simpl;
          [apply elem_of_union; left; apply elem_of_union; by left
          |apply elem_of_union; right; by apply elem_of_singleton]).
    erewrite _update_dse_yaml_ok; [|simpl..]; try eassumption.
    + eexists _, [_]. split; [reflexivity|]. simpl. split_and!; auto.
      * by rewrite lookup_insert_eq.
      * by rewrite <- !app_assoc.
    + by apply copy_children_lookup.
    + apply elem_of_union; right. by apply elem_of_singleton.
Qed.
End config_import.

(** ** Runs in given worlds *)


Section examples.

(** C6, at a node of a cluster with opscenter whose agent directory does
    not exist: the process of the node is stopped, no operation of the agent
    stop is attempted, and [stop] raises [UnboundLocalError], the local name
    [pidfile] of [_stop_agent] being read without having been bound. *)
Theorem stop_without_agent_directory :
  let after := stop (sample_node "none") true false true running_world in
  hasOpscenter (the_cluster (sample_node "none")) = true ∧
  bool_decide (agent_dir (sample_node "none") ∈ dirs running_world) = false ∧
  after.1 = Raise UnboundLocalError ∧
  trace after.2 = [EvSignal 4242 SIGTERM; EvWaitExit 4242] ∧
  bool_decide (4242 ∈ live after.2) = false.
Proof. cbv zeta. split_and!; vm_compute; reflexivity. Qed.

Lemma start_already_running_witness :
  pid running_world = Some 4242 ∧ 4242 ∈ live running_world ∧
  start (sample_node "none") default_options running_world
    = (Raise (NodeError "node1 is already running"), running_world).
Proof.
  assert (4242 ∈ live running_world) as Hlive by by_compute.
  split_and!; [reflexivity|exact Hlive|].
  exact (start_already_running (sample_node "none") default_options
           running_world 4242 eq_refl Hlive).
Defined.

Lemma import_copies_then_merges_witness :
  ∃ w' made,
    import_dse_config_files (sample_node "none") install_world = (Ok tt, w') ∧
    files w' !! dse_yaml (sample_node "none") = Some (Yaml (VMap merged_sample)) ∧
    (∀ k, full_options ∅ {[ KStr "timeout" := VNone ]} !! k = Some VNone →
          merged_sample !! k = None) ∧
    (made = [] ∨ made = [EvMakedirs (dse_conf_dir (sample_node "none"))]) ∧
    trace w' = trace install_world ++ [EvUpdateConfig] ++ made ++
                 [EvCopyDirectory (install_dse_conf (sample_node "none"))
                    (dse_conf_dir (sample_node "none"));
                  EvRead (dse_yaml (sample_node "none"));
                  EvWrite (dse_yaml (sample_node "none"))].
Proof.
  apply (import_copies_then_merges (sample_node "none") install_world
           {[ KStr "timeout" := VInt 30 ]} {[ KStr "timeout" := VNone ]} merged_sample).
  - reflexivity.
  - by_compute.
  - vm_compute. reflexivity.
  - right. split_and!.
    + by_compute.
    + vm_compute. reflexivity.
    + unfold ancestors. simpl. repeat constructor; vm_compute; reflexivity.
  - by_compute.
  - vm_compute. reflexivity.
Defined.


(** With kerberos, [start] returns and the one process it has started has
    the [krb5.conf] of the cluster as its [KRB5_CONFIG]; without kerberos
    the entry is not there, as it is not in the base environment. *)
Example start_kerberos_example :
  (start (sample_node "kerberos") default_options install_world).1 = Ok tt ∧
  (λ env : environ, env !! "KRB5_CONFIG") <$>
    spawned_environments
      (trace (start (sample_node "kerberos") default_options install_world).2)
    = [Some "/ccm/test/krb5.conf"] ∧
  (λ env : environ, env !! "KRB5_CONFIG") <$>
    spawned_environments
      (trace (start (sample_node "none") default_options install_world).2)
    = [None].
Proof. split_and!; vm_compute; reflexivity. Qed.
End examples.

(** ** The constructor *)


Section constructor.

(** The constructor leaves a node without the attribute
    [_dse_config_options]. *)
Lemma __init___leaves_attribute_unset self w :
  dse_config_options (__init__ self w).2 = None.
Proof.
  unfold __init__, Node_init, get_cassandra_version, _copy_agent, copytree,
    path_exists, isdir.
  monad_unfold. repeat case_match; simplify_eq; done.
Qed.

(** C10, as the code has it.  On a node that the constructor has just
    made, [set_dse_configuration_options] with a mapping that is not empty
    raises [AttributeError] at the first assignment of line 60, in the world
    the constructor has left: no override is recorded and no file is
    touched. *)
Theorem set_dse_configuration_options_unset self (values : dict) w :
  values ≠ ∅ →
  set_dse_configuration_options self (Some values) (__init__ self w).2
    = (Raise AttributeError, (__init__ self w).2).
Proof.
  intros Hvalues. pose proof (__init___leaves_attribute_unset self w) as Hunset.
  set (fresh := (__init__ self w).2) in *.
  unfold set_dse_configuration_options.
  destruct (map_to_list values) as [|[k v] items] eqn:Hitems.
  { by apply map_to_list_empty_iff in Hitems. }
  apply bind_raise. simpl. apply bind_raise.
  unfold set_dse_config_option, bind, get. by rewrite Hunset.
Qed.

Lemma set_dse_configuration_options_unset_witness :
  ({[ KStr "timeout" := VInt 60 ]} : dict) ≠ ∅ ∧
  set_dse_configuration_options (sample_node "none")
    (Some {[ KStr "timeout" := VInt 60 ]})
    (__init__ (sample_node "none") install_world).2
    = (Raise AttributeError, (__init__ (sample_node "none") install_world).2).
Proof.
  assert (({[ KStr "timeout" := VInt 60 ]} : dict) ≠ ∅) as Hvalues
    by apply insert_non_empty.
  split; [exact Hvalues|].
  exact (set_dse_configuration_options_unset (sample_node "none") _
           install_world Hvalues).
Defined.

(** The claim C10 at the empty mapping, which is not [None]: the loop of
    line 59 has nothing to assign, the configuration is imported, its files
    are copied into the directory of the node, and the [AttributeError]
    comes from line 340, after the copy. *)
Lemma set_dse_configuration_options_counterexample :
  after_empty_options.1 = Raise AttributeError ∧
  trace after_empty_options.2 = trace fresh_world ++
    [EvUpdateConfig;
     EvMakedirs ["ccm"; "test"; "node1"; "resources"; "dse"; "conf"];
     EvCopyDirectory ["opt"; "dse"; "resources"; "dse"; "conf"]
       ["ccm"; "test"; "node1"; "resources"; "dse"; "conf"];
     EvRead ["ccm"; "test"; "node1"; "resources"; "dse"; "conf"; "dse.yaml"]] ∧
  bool_decide (is_Some (files fresh_world !! dse_yaml (sample_node "none"))) = false ∧
  bool_decide (is_Some (files after_empty_options.2 !! dse_yaml (sample_node "none")))
    = true ∧
  after_empty_options ≠ (Raise AttributeError, fresh_world).
Proof.
  assert (bool_decide (is_Some (files fresh_world !! dse_yaml (sample_node "none")))
          = false) as Hbefore by (vm_compute; reflexivity).
  assert (bool_decide
            (is_Some (files after_empty_options.2 !! dse_yaml (sample_node "none")))
          = true) as Hafter by (vm_compute; reflexivity).
  split_and!; [vm_compute; reflexivity..|exact Hbefore|exact Hafter|].
  intros Heq.
  assert (after_empty_options.2 = fresh_world) as Hsame by (by rewrite Heq).
  rewrite Hsame, Hbefore in Hafter. discriminate Hafter.
Qed.
End constructor.

(** * Further properties *)

Import Invariants.

(** ** More on the structured merge *)

Section merge_failures.

Lemma copy_seq_options_raise rest src : ∀ target e,
  copy_seq_options rest src target = Raise e → e = TypeError ∨ e = IndexError.
Proof.
  assert (∀ i x, seq_getitem src i = Raise x → x = IndexError) as Hget.
  { intros i x. unfold seq_getitem. repeat case_match; by intros [=]. }
  induction rest as [|option rest IH]; intros target e; simpl; [done|].
  destruct option as [|b|i| | |]; try (intros [= <-]; by left).
  - destruct (seq_getitem src (Z.b2z b)) as [x|x] eqn:Hx; simpl; [apply IH|].
    intros [= <-]. right. by eapply Hget.
  - destruct (seq_getitem src i) as [x|x] eqn:Hx; simpl; [apply IH|].
    intros [= <-]. right. by eapply Hget.
Qed.

Lemma override_entry_raise v x e :
  override_entry v x = Raise e →
  (e = TypeError ∨ e = IndexError) ∧ v ≠ VNone ∧ (∀ o, v ≠ VMap o) ∧
  ∃ m, x = Some (VMap m).
Proof.
  destruct v as [|b|i|s|l|o]; simpl; [done|..];
    destruct x as [[| | | | |m]|]; simpl; try done.
  - intros [= <-]. split_and!; [by left|done|done|by eexists].
  - intros [= <-]. split_and!; [by left|done|done|by eexists].
  - destruct (decide _); [done|]. intros [= <-].
    split_and!; [by left|done|done|by eexists].
  - destruct (copy_seq_options l l m) eqn:Hrun; simpl; [done|]. intros [= <-].
    split_and!; [by eapply copy_seq_options_raise|done|done|by eexists].
Qed.

Lemma for_each_option_raise items : ∀ data e,
  NoDup items.*1 →
  for_each_option items data = Raise e →
  ∃ k v, (k, v) ∈ items ∧ override_entry v (data !! k) = Raise e.
Proof.
  induction items as [|[name v] items IH]; intros data e Hnd; simpl; [done|].
  apply NoDup_cons in Hnd as [Hname Hnd].
  rewrite apply_override_entry.
  destruct (override_entry v (data !! name)) as [r|e'] eqn:Hentry; simpl.
  - intros (k & v' & Hin & Hk)%IH; [|done]. exists k, v'. split; [by right|].
    rewrite lookup_partial_alter_ne in Hk; [done|].
    intros ->. apply Hname. apply list_elem_of_fmap. by exists (k, v').
  - intros [= <-]. exists name, v. split; [by left|done].
Qed.

Lemma for_each_option_raises items : ∀ data k v e,
  NoDup items.*1 →
  (k, v) ∈ items →
  override_entry v (data !! k) = Raise e →
  ∃ e', for_each_option items data = Raise e'.
Proof.
  induction items as [|[name v0] items IH]; intros data k v e Hnd Hin Hk; simpl.
  { by apply elem_of_nil in Hin. }
  apply NoDup_cons in Hnd as [Hname Hnd].
  rewrite apply_override_entry.
  destruct (override_entry v0 (data !! name)) as [r|e'] eqn:Hentry; simpl;
    [|by eexists].
  apply elem_of_cons in Hin as [[= -> ->]|Hin]; [congruence|].
  apply (IH _ k v e); [done..|].
  rewrite lookup_partial_alter_ne; [done|].
  intros ->. apply Hname. apply list_elem_of_fmap. by exists (k, v).
Qed.

(** X1.  The merge raises only where an override that is neither the deletion
    marker nor a mapping is laid over an existing mapping, and then with
    [TypeError] or [IndexError]; a number, a boolean or a non-empty string
    laid over an existing mapping always makes it raise.  A missing key
    never does. *)
Theorem update_dse_yaml_failure keys (c n D : dict) :
  (∀ e, update_dse_yaml_data keys c n D = Raise e →
     (e = TypeError ∨ e = IndexError) ∧
     ∃ k v m,
       full_options c n !! k = Some v ∧
       <[system_key_directory := VStr keys]> D !! k = Some (VMap m) ∧
       v ≠ VNone ∧ ∀ o, v ≠ VMap o) ∧
  (∀ k v m,
     full_options c n !! k = Some v →
     <[system_key_directory := VStr keys]> D !! k = Some (VMap m) →
     plain_scalar v = true →
     ∃ e, update_dse_yaml_data keys c n D = Raise e).
Proof.
  unfold update_dse_yaml_data. split.
  - intros e (k & v & Hin & Hk)%for_each_option_raise; [|apply NoDup_fst_map_to_list].
    apply override_entry_raise in Hk as (He & Hnone & Hmap & m & Hm).
    split; [done|]. exists k, v, m. split_and!; try done.
    by apply elem_of_map_to_list.
  - intros k v m Hv Hm Hplain.
    apply (for_each_option_raises _ _ k v TypeError);
      [apply NoDup_fst_map_to_list|by apply elem_of_map_to_list|].
    rewrite Hm. destruct v as [| | |s| |]; try done. simpl in *.
    destruct (decide (s = EmptyString)) as [->|]; done.
Qed.

Lemma update_dse_yaml_failure_witness :
  ∃ e, update_dse_yaml_data "/n/keys" ∅ plain_override nested_document = Raise e ∧
       (e = TypeError ∨ e = IndexError).
Proof.
  pose proof (update_dse_yaml_failure "/n/keys" ∅ plain_override nested_document)
    as [Honly Hplain].
  destruct (Hplain (KStr "a") (VInt 5)
              {[ KStr "b" := VMap {[ KStr "c" := VInt 1; KStr "d" := VInt 2 ]} ]})
    as [e He].
  - vm_compute. reflexivity.
  - rewrite lookup_insert_ne by (intros [=]). apply lookup_singleton_eq.
  - reflexivity.
  - exists e. split; [exact He|]. exact (proj1 (Honly e He)).
Defined.

(** X2.  The merge leaves alone what no override names: such an entry of the
    loaded document is in the merged one as it was, and every key of the
    merged document is a key of the loaded one, an overridden key or
    [system_key_directory]. *)
Theorem update_dse_yaml_frame keys (c n D D' : dict) :
  update_dse_yaml_data keys c n D = Ok D' →
  (∀ k, full_options c n !! k = None → k ≠ system_key_directory →
        D' !! k = D !! k) ∧
  (∀ k, is_Some (D' !! k) →
        is_Some (D !! k) ∨ is_Some (full_options c n !! k) ∨ k = system_key_directory).
Proof.
  intros Hrun.
  assert (∀ k, full_options c n !! k = None → k ≠ system_key_directory →
               D' !! k = D !! k) as Hframe.
  { intros k Hk Hne. pose proof (update_dse_yaml_data_sound _ _ _ _ _ k Hrun) as Hs.
    rewrite full_options_union in Hk. rewrite Hk in Hs.
    by rewrite lookup_insert_ne in Hs. }
  split; [done|]. intros k Hsome.
  destruct (full_options c n !! k) eqn:Hk; [right; left; by eexists|].
  destruct (decide (k = system_key_directory)) as [->|Hne]; [by right; right|].
  left. by rewrite <- Hframe.
Qed.

Lemma update_dse_yaml_frame_witness :
  ∃ D' : dict,
    update_dse_yaml_data "/n/keys" ∅ {[ KStr "a" := VInt 2 ]} {[ KStr "b" := VInt 7 ]}
      = Ok D' ∧
    D' !! KStr "b" = Some (VInt 7).
Proof.
  assert (update_dse_yaml_data "/n/keys" ∅ {[ KStr "a" := VInt 2 ]} {[ KStr "b" := VInt 7 ]}
          = Ok (<[KStr "a" := VInt 2]>
                  (<[system_key_directory := VStr "/n/keys"]> {[ KStr "b" := VInt 7 ]})))
    as Hrun.
  { apply update_dse_yaml_data_complete. intros k.
    rewrite (right_id_L ∅ (∪)).
    destruct (decide (k = KStr "a")) as [->|Hne].
    - rewrite lookup_singleton_eq, lookup_insert_eq.
      rewrite lookup_insert_ne by (intros [=]).
      by rewrite lookup_singleton_ne by (intros [=]).
    - rewrite lookup_singleton_ne by done. by rewrite lookup_insert_ne. }
  eexists. split; [exact Hrun|].
  rewrite (proj1 (update_dse_yaml_frame _ _ _ _ _ Hrun) (KStr "b")).
  - apply lookup_singleton_eq.
  - vm_compute. reflexivity.
  - intros [=].
Defined.
End merge_failures.

(** ** Invariants of the runs *)

Section hoare_logic.
Context {Inv : world → Prop} {P : event → Prop}.

Lemma hoare_ret {A} (Φ : A → Prop) a : Φ a → hoare Inv P Φ (ret a).
Proof.
  intros Ha w Hw. exists []. simpl. rewrite app_nil_r.
  split_and!; [done|constructor|done|]. by intros ? [= <-].
Qed.

Lemma hoare_raise {A} (Φ : A → Prop) e : hoare Inv P Φ (raise e).
Proof.
  intros w Hw. exists []. simpl. rewrite app_nil_r.
  split_and!; [done|constructor|done|done].
Qed.

Lemma hoare_get {A} (Φ : A → Prop) (f : world → A) :
  (∀ w, Inv w → Φ (f w)) → hoare Inv P Φ (get f).
Proof.
  intros Hf w Hw. exists []. simpl. rewrite app_nil_r.
  split_and!; [done|constructor|done|]. intros ? [= <-]. by apply Hf.
Qed.

Lemma hoare_modify (Φ : unit → Prop) (f : world → world) :
  (∀ w, Inv w → Inv (f w)) → (∀ w, trace (f w) = trace w) → Φ tt →
  hoare Inv P Φ (modify f).
Proof.
  intros Hinv Hf Htt w Hw. exists []. simpl. rewrite app_nil_r, Hf.
  split_and!; [done|constructor|by apply Hinv|]. by intros [] _.
Qed.

Lemma hoare_emit (Φ : unit → Prop) ev :
  (∀ w, Inv w → Inv (add_event ev w)) → P ev → Φ tt → hoare Inv P Φ (emit ev).
Proof.
  intros Hinv Hev Htt w Hw. exists [ev]. simpl.
  split_and!; [done|by constructor|by apply Hinv|]. by intros [] _.
Qed.

Lemma hoare_lift {A} (Φ : A → Prop) (r : result A) :
  (∀ a, r = Ok a → Φ a) → hoare Inv P Φ (lift r).
Proof.
  intros Hr w Hw. exists []. simpl. rewrite app_nil_r.
  split_and!; [done|constructor|done|done].
Qed.

Lemma hoare_bind {A B} (Φ : A → Prop) (Ψ : B → Prop) (m : M A) (k : A → M B) :
  hoare Inv P Φ m → (∀ a, Φ a → hoare Inv P Ψ (k a)) → hoare Inv P Ψ (bind m k).
Proof.
  intros Hm Hk w Hw. destruct (Hm w Hw) as (evs1 & Ht1 & He1 & Hw1 & Ha).
  unfold bind. destruct (m w) as [[a|e] w1]; simpl in *.
  - destruct (Hk a (Ha a eq_refl) w1 Hw1) as (evs2 & Ht2 & He2 & Hw2 & Hb).
    exists (evs1 ++ evs2). rewrite Ht2, Ht1, <- app_assoc.
    split_and!; [done|by apply Forall_app|done|done].
  - exists evs1. split_and!; done.
Qed.

Lemma hoare_bind_true {A B} (Ψ : B → Prop) (m : M A) (k : A → M B) :
  hoare Inv P (λ _, True) m → (∀ a, hoare Inv P Ψ (k a)) → hoare Inv P Ψ (bind m k).
Proof. intros Hm Hk. apply (hoare_bind (λ _, True)); auto. Qed.

Lemma hoare_try {A} (Φ : A → Prop) (m handler : M A) e :
  hoare Inv P Φ m → hoare Inv P Φ handler → hoare Inv P Φ (try_except m e handler).
Proof.
  intros Hm Hh w Hw. destruct (Hm w Hw) as (evs1 & Ht1 & He1 & Hw1 & Ha).
  unfold try_except. destruct (m w) as [[a|e'] w1]; simpl in *.
  - by exists evs1.
  - destruct (decide (e' = e)).
    + destruct (Hh w1 Hw1) as (evs2 & Ht2 & He2 & Hw2 & Hb).
      exists (evs1 ++ evs2). rewrite Ht2, Ht1, <- app_assoc.
      split_and!; [done|by apply Forall_app|done|done].
    + exists evs1. split_and!; done.
Qed.

Lemma hoare_when (b : bool) (m : M unit) :
  hoare Inv P (λ _, True) m → hoare Inv P (λ _, True) (when b m).
Proof. intros Hm. destruct b; [done|]. by apply hoare_ret. Qed.

Lemma hoare_for_each {A} (l : list A) (body : A → M unit) :
  (∀ x, hoare Inv P (λ _, True) (body x)) → hoare Inv P (λ _, True) (for_each l body).
Proof.
  intros Hbody. induction l as [|x l IH]; simpl.
  - by apply hoare_ret.
  - apply hoare_bind_true; [apply Hbody|]. by intros _.
Qed.

Lemma hoare_collect_marks peers :
  (∀ n w, Inv w → Inv (add_event (EvMarkLog n) w)) →
  (∀ n, P (EvMarkLog n)) →
  hoare Inv P (λ _, True) (collect_marks peers).
Proof.
  intros Hinv HP. induction peers as [|peer peers IH]; simpl.
  - by apply hoare_ret.
  - apply hoare_bind_true; [by apply hoare_get|]. intros [].
    + apply hoare_bind_true.
      { unfold mark_log. apply hoare_bind_true; [apply hoare_emit; auto|].
        intros _. by apply hoare_get. }
      intros mark. apply hoare_bind_true; [done|]. intros rest. by apply hoare_ret.
    + done.
Qed.

Lemma hoare_weaken {A} (Φ Ψ : A → Prop) (m : M A) :
  (∀ a, Φ a → Ψ a) → hoare Inv P Φ m → hoare Inv P Ψ m.
Proof.
  intros Himp Hm w Hw. destruct (Hm w Hw) as (evs & Ht & He & Hw1 & Ha).
  exists evs. split_and!; [done..|]. intros a Hok. by apply Himp, Ha.
Qed.
End hoare_logic.

(** What holds of a run from one world, read off a triple. *)
Lemma hoare_run {A} (Inv : world → Prop) (P : event → Prop) (Φ : A → Prop)
    (m : M A) w :
  hoare Inv P Φ m → Inv w →
  ∃ evs, trace (m w).2 = trace w ++ evs ∧ Forall P evs ∧ Inv (m w).2 ∧
         ∀ a, (m w).1 = Ok a → Φ a.
Proof. intros Hm Hw. by apply Hm. Qed.

Ltac hoare_side :=
  intros; simpl in *; try done; try (unfold not; intros; simpl in *; done).

Ltac hoare_leaf :=
  first
    [ apply hoare_ret; exact Logic.I
    | apply hoare_raise
    | apply hoare_get; intros; exact Logic.I
    | apply hoare_modify; [hoare_side | intros; reflexivity | exact Logic.I]
    | apply hoare_emit; [hoare_side | hoare_side | exact Logic.I]
    | apply hoare_lift; intros; exact Logic.I ].

Ltac hoare_walk :=
  first
    [ hoare_leaf
    | apply hoare_bind_true; [|intros ?]
    | apply hoare_try
    | apply hoare_when
    | apply hoare_for_each; intros ?
    | apply hoare_collect_marks; [hoare_side | hoare_side]
    | lazymatch goal with
      | |- hoare _ _ _ (match ?x with _ => _ end) => destruct x
      end
    | progress unfold check_socket_available, shutil_copy, chmod_exec,
        replace_in_file, popen_launcher, _update_pid, is_running, isdir,
        path_exists, read_file, write_file, remove_file, makedirs, kill,
        copy_directory, copytree, os_mkdir, popen_wait, _update_config,
        get_cassandra_version, _start_agent, _stop_agent, _copy_agent,
        _write_agent_address_yaml, _write_agent_log4j_properties
    | progress cbv zeta ].

(** ** The document written by [_update_dse_yaml] *)

Section dse_yaml_file.

Lemma _update_dse_yaml_inv self w :
  (_update_dse_yaml self w).1 = Ok tt →
  ∃ base n merged,
    files w !! dse_yaml self = Some (Yaml (VMap base)) ∧
    dse_config_options w = Some n ∧
    update_dse_yaml_data (render (path self ++ ["keys"]))
      (cluster_dse_config_options (the_cluster self)) n base = Ok merged ∧
    _update_dse_yaml self w
      = (Ok tt, set_files <[dse_yaml self := Yaml (VMap merged)]>
                  (add_event (EvWrite (dse_yaml self))
                     (add_event (EvRead (dse_yaml self)) w))).
Proof.
  unfold _update_dse_yaml, read_file, write_file. monad_unfold. simpl.
  destruct (files w !! dse_yaml self) as [[[| | | | |base]| |]|]; simpl; try done.
  destruct (dse_config_options w) as [n|]; simpl; [|done].
  destruct (update_dse_yaml_data _ _ n base) as [merged|] eqn:Hmerge; simpl; [|done].
  destruct (_ && _); simpl; [|done].
  intros _. by exists base, n, merged.
Qed.

(** X3.  [_update_dse_yaml] changes one file, [dse.yaml] in the configuration
    directory of the node, and nothing else of the world; a run that
    raises has not changed any file. *)
Theorem dse_yaml_only_file_changed self w :
  dirs (_update_dse_yaml self w).2 = dirs w ∧
  live (_update_dse_yaml self w).2 = live w ∧
  pid (_update_dse_yaml self w).2 = pid w ∧
  dse_config_options (_update_dse_yaml self w).2 = dse_config_options w ∧
  (∀ p, p ≠ dse_yaml self →
        files (_update_dse_yaml self w).2 !! p = files w !! p) ∧
  (∀ e, (_update_dse_yaml self w).1 = Raise e →
        files (_update_dse_yaml self w).2 = files w).
Proof.
  unfold _update_dse_yaml, read_file, write_file. monad_unfold. simpl.
  destruct (files w !! dse_yaml self) as [[[| | | | |base]| |]|]; simpl;
    try (split_and!; done).
  destruct (dse_config_options w) as [n|] eqn:Hattr; simpl; [|split_and!; done].
  destruct (update_dse_yaml_data _ _ n base) as [merged|]; simpl;
    [|split_and!; done].
  destruct (_ && _); simpl; [|split_and!; done].
  split_and!; try done. intros p Hp. by rewrite lookup_insert_ne.
Qed.

Lemma dse_yaml_only_file_changed_witness :
  files (_update_dse_yaml (sample_node "none") install_world).2
    !! ["opt"; "dse"; "bin"; "dse"]
  = files install_world !! ["opt"; "dse"; "bin"; "dse"].
Proof.
  apply (dse_yaml_only_file_changed (sample_node "none") install_world).
  intros [=].
Defined.

(** X4.  The document that [_update_dse_yaml] writes names the [keys] directory
    of the node as its [system_key_directory], whatever the file said
    before, unless an override names that key: then the override decides,
    and the deletion marker leaves the document without the key. *)
Theorem dse_yaml_key_directory self w :
  (_update_dse_yaml self w).1 = Ok tt →
  ∃ (n D' : dict),
    dse_config_options w = Some n ∧
    files (_update_dse_yaml self w).2 !! dse_yaml self = Some (Yaml (VMap D')) ∧
    match full_options (cluster_dse_config_options (the_cluster self)) n
            !! system_key_directory with
    | None =>
        ∃ d, _get_directories self !! "keys" = Some d ∧
             D' !! system_key_directory = Some (VStr (render d))
    | Some VNone => D' !! system_key_directory = None
    | Some v => D' !! system_key_directory = Some v
    end.
Proof.
  intros Hok.
  apply _update_dse_yaml_inv in Hok as (base & n & merged & Hfile & Hattr & Hmerge & ->).
  exists n, merged. simpl. rewrite lookup_insert_eq. split_and!; [done..|].
  pose proof (update_dse_yaml_data_sound _ _ _ _ _ system_key_directory Hmerge) as Hs.
  rewrite full_options_union. rewrite lookup_insert_eq in Hs.
  destruct ((n ∪ _) !! system_key_directory) as [v|].
  - destruct v; simpl in Hs; congruence.
  - exists (path self ++ ["keys"]). split; [reflexivity|done].
Qed.

Lemma dse_yaml_key_directory_witness :
  (_update_dse_yaml (sample_node "none") imported_world).1 = Ok tt ∧
  ∃ (n D' : dict),
    dse_config_options imported_world = Some n ∧
    files (_update_dse_yaml (sample_node "none") imported_world).2
      !! dse_yaml (sample_node "none") = Some (Yaml (VMap D')) ∧
    match full_options (cluster_dse_config_options (the_cluster (sample_node "none"))) n
            !! system_key_directory with
    | None =>
        ∃ d, _get_directories (sample_node "none") !! "keys" = Some d ∧
             D' !! system_key_directory = Some (VStr (render d))
    | Some VNone => D' !! system_key_directory = None
    | Some v => D' !! system_key_directory = Some v
    end.
Proof.
  assert ((_update_dse_yaml (sample_node "none") imported_world).1 = Ok tt) as Hok
    by (vm_compute; reflexivity).
  split; [exact Hok|].
  exact (dse_yaml_key_directory (sample_node "none") imported_world Hok).
Defined.



Lemma for_each_set_dse_config_option items : ∀ (opts : dict) w,
  dse_config_options w = Some opts →
  for_each items (λ kv, set_dse_config_option kv.1 kv.2) w
    = (Ok tt, set_dse_config_options
                (Some (foldl (λ d kv, <[kv.1 := kv.2]> d) opts items)) w).
Proof.
  induction items as [|[k v] items IH]; intros opts w Hattr; simpl.
  - destruct w. simpl in *. by subst.
  - unfold bind at 1. unfold set_dse_config_option at 1. unfold bind at 1, get at 1.
    rewrite Hattr. simpl. unfold modify. by rewrite (IH (<[k := v]> opts)).
Qed.

Lemma import_keeps_attribute self x :
  hoare (λ w, dse_config_options w = x) (λ _, True) (λ _ : unit, True)
    (import_dse_config_files self).
Proof.
  unfold import_dse_config_files, _update_dse_yaml. repeat hoare_walk.
Qed.

(** X6.  The overrides of a node add up: after
    [set_dse_configuration_options(values)] the node holds [values] laid
    over what it held before, the deletion markers among them, whether the
    import that follows succeeds or not. *)
Theorem set_dse_configuration_options_accumulates self (values opts : dict) w :
  dse_config_options w = Some opts →
  dse_config_options (set_dse_configuration_options self (Some values) w).2
    = Some (values ∪ opts).
Proof.
  intros Hattr. unfold set_dse_configuration_options.
  rewrite (bind_ok _ _ _ _ _ (for_each_set_dse_config_option _ _ _ Hattr)).
  rewrite foldl_insert_union.
  replace (list_to_map (reverse (map_to_list values))) with values.
  - by destruct (import_keeps_attribute self (Some (values ∪ opts))
                   (set_dse_config_options (Some (values ∪ opts)) w) eq_refl)
      as (_ & _ & _ & Hkept & _).
  - rewrite <- (list_to_map_to_list values) at 1.
    apply list_to_map_proper;
      [apply NoDup_fst_map_to_list|symmetry; apply reverse_Permutation].
Qed.

Lemma set_dse_configuration_options_accumulates_witness :
  dse_config_options install_world = Some {[ KStr "timeout" := VNone ]} ∧
  dse_config_options
    (set_dse_configuration_options (sample_node "none")
       (Some {[ KStr "a" := VInt 1 ]}) install_world).2
    = Some ({[ KStr "a" := VInt 1 ]} ∪ {[ KStr "timeout" := VNone ]}).
Proof.
  split; [reflexivity|].
  exact (set_dse_configuration_options_accumulates (sample_node "none")
           {[ KStr "a" := VInt 1 ]} {[ KStr "timeout" := VNone ]} install_world eq_refl).
Defined.
End dse_yaml_file.

(** ** Copying the files of the installation *)

Section copies.

Lemma bind_inv {A B} (m : M A) (k : A → M B) w b :
  (bind m k w).1 = Ok b →
  ∃ a w1, m w = (Ok a, w1) ∧ (k a w1).1 = Ok b ∧ bind m k w = k a w1.
Proof.
  unfold bind. destruct (m w) as [[a|e] w1]; simpl; [|done]. intros Hk. by exists a, w1.
Qed.

Lemma copy_directory_dirs src dst w : dirs (copy_directory src dst w).2 = dirs w.
Proof.
  unfold copy_directory, isdir. monad_unfold. simpl. by destruct (_ && _).
Qed.

Lemma makedirs_made p w w1 :
  makedirs p w = (Ok tt, w1) → p ∈ dirs w1 ∧ dirs w ⊆ dirs w1 ∧ files w1 = files w.
Proof.
  unfold makedirs, path_exists. monad_unfold. simpl.
  destruct (_ || _); [done|]. intros [= <-]. simpl. split_and!; [set_solver..|done].
Qed.

Lemma makedirs_inv p w :
  (makedirs p w).1 = Ok tt →
  makedirs p w
    = (Ok tt, set_dirs (λ d, d ∪ list_to_set (ancestors p) ∪ {[p]})
                (add_event (EvMakedirs p) w)).
Proof.
  unfold makedirs, path_exists. monad_unfold. simpl. by destruct (_ || _).
Qed.

Lemma makedirs_exists p w :
  p ∈ dirs w → makedirs p w = (Raise OSError, add_event (EvMakedirs p) w).
Proof.
  intros Hp. unfold makedirs, path_exists. monad_unfold. simpl.
  by rewrite bool_decide_eq_true_2.
Qed.

Lemma copy_directory_inv src dst w :
  (copy_directory src dst w).1 = Ok tt →
  src ∈ dirs w ∧ dst ∈ dirs w ∧
  copy_directory src dst w
    = (Ok tt, set_files (copy_children src dst) (add_event (EvCopyDirectory src dst) w)).
Proof.
  unfold copy_directory, isdir. monad_unfold. simpl.
  destruct (bool_decide (src ∈ dirs w)) eqn:Hsrc; [|done].
  destruct (bool_decide (dst ∈ dirs w)) eqn:Hdst; [|done].
  apply bool_decide_eq_true in Hsrc, Hdst. by intros _.
Qed.

Lemma os_mkdir_inv p w :
  (os_mkdir p w).1 = Ok tt →
  os_mkdir p w = (Ok tt, set_dirs (λ d, d ∪ {[p]}) (add_event (EvMakedirs p) w)).
Proof.
  unfold os_mkdir, path_exists, isdir. monad_unfold. simpl. by destruct (_ || _).
Qed.

Lemma os_mkdir_exists p w :
  p ∈ dirs w → os_mkdir p w = (Raise OSError, add_event (EvMakedirs p) w).
Proof.
  intros Hp. unfold os_mkdir, path_exists, isdir. monad_unfold. simpl.
  by rewrite (bool_decide_eq_true_2 (p ∈ dirs w)).
Qed.

(** X7.  [import_bin_files] cannot be run twice: it makes the directory
    [resources/cassandra/bin] of the node with [os.makedirs], which raises
    on a directory that is there.  After a run that has returned, a second
    one raises [OSError] and copies nothing. *)
Theorem import_bin_files_once self w :
  (import_bin_files self w).1 = Ok tt →
  import_bin_files self (import_bin_files self w).2
    = (Raise OSError,
       add_event (EvMakedirs (path self ++ ["resources"; "cassandra"; "bin"]))
         (import_bin_files self w).2).
Proof.
  intros Hok. unfold import_bin_files in *.
  destruct (bind_inv _ _ _ _ Hok) as ([] & w1 & Hmake & Hok1 & ->).
  destruct (bind_inv _ _ _ _ Hok1) as ([] & w2 & Hcopy & _ & ->).
  apply bind_raise, makedirs_exists.
  rewrite copy_directory_dirs.
  replace w2 with (copy_directory (install_dir self ++ ["bin"]) (get_bin_dir self) w1).2
    by (by rewrite Hcopy).
  rewrite copy_directory_dirs. by apply makedirs_made in Hmake as [? _].
Qed.

Lemma import_bin_files_once_witness :
  (import_bin_files (sample_node "none") full_install_world).1 = Ok tt ∧
  (import_bin_files (sample_node "none")
     (import_bin_files (sample_node "none") full_install_world).2).1 = Raise OSError.
Proof.
  assert ((import_bin_files (sample_node "none") full_install_world).1 = Ok tt) as Hok
    by (vm_compute; reflexivity).
  split; [exact Hok|].
  by rewrite (import_bin_files_once (sample_node "none") full_install_world Hok).
Defined.

Lemma copy_product_config_dirs self product w :
  dirs w ⊆ dirs (copy_product_config self product w).2.
Proof.
  unfold copy_product_config, makedirs, copy_directory, os_mkdir, path_exists, isdir.
  monad_unfold. simpl.
  repeat (case_match; simpl in *; simplify_eq); set_solver.
Qed.

Lemma for_each_copy_dirs self l : ∀ w,
  dirs w ⊆ dirs (for_each l (copy_product_config self) w).2.
Proof.
  induction l as [|x l IH]; intros w; simpl; [done|].
  pose proof (copy_product_config_dirs self x w) as Hx.
  unfold bind. destruct (copy_product_config self x w) as [[[]|e] w1]; simpl in *;
    [|done].
  etrans; [exact Hx|apply IH].
Qed.

Lemma copy_product_config_inv self product w :
  (copy_product_config self product w).1 = Ok tt →
  product_conf (install_dir self) product ∈ dirs (copy_product_config self product w).2 ∧
  product_conf (path self) product ∈ dirs (copy_product_config self product w).2 ∧
  (product = "cassandra" →
   product_conf (path self) product ++ ["triggers"]
     ∈ dirs (copy_product_config self product w).2).
Proof.
  unfold copy_product_config, makedirs, copy_directory, os_mkdir, path_exists, isdir.
  monad_unfold. simpl.
  repeat (case_match; simpl in *; simplify_eq); try done; intros _;
    repeat match goal with
           | H : bool_decide _ = true |- _ => apply bool_decide_eq_true in H
           | H : bool_decide _ = false |- _ => apply bool_decide_eq_false in H
           | H : _ && _ = true |- _ => apply andb_true_iff in H as [? ?]
           end;
    split_and!; try done; set_solver.
Qed.

Lemma copy_product_config_again self product w :
  product_conf (install_dir self) product ∈ dirs w →
  product_conf (path self) product ∈ dirs w →
  product ≠ "cassandra" →
  copy_product_config self product w
    = (Ok tt, set_files (copy_children (product_conf (install_dir self) product)
                           (product_conf (path self) product))
                (add_event (EvCopyDirectory (product_conf (install_dir self) product)
                              (product_conf (path self) product)) w)).
Proof.
  intros Hsrc Hdst Hne.
  unfold copy_product_config, copy_directory, isdir. monad_unfold. simpl.
  rewrite (bool_decide_eq_true_2 _ Hdst). simpl.
  rewrite (bool_decide_eq_true_2 _ Hsrc), (bool_decide_eq_true_2 _ Hdst). simpl.
  by rewrite (bool_decide_eq_false_2 _ Hne).
Qed.

Lemma copy_cassandra_config_again self w :
  product_conf (install_dir self) "cassandra" ∈ dirs w →
  product_conf (path self) "cassandra" ∈ dirs w →
  product_conf (path self) "cassandra" ++ ["triggers"] ∈ dirs w →
  copy_product_config self "cassandra" w
    = (Raise OSError,
       add_event (EvMakedirs (product_conf (path self) "cassandra" ++ ["triggers"]))
         (set_files (copy_children (product_conf (install_dir self) "cassandra")
                       (product_conf (path self) "cassandra"))
            (add_event (EvCopyDirectory (product_conf (install_dir self) "cassandra")
                          (product_conf (path self) "cassandra")) w))).
Proof.
  intros Hsrc Hdst Htriggers.
  unfold copy_product_config, copy_directory, os_mkdir, path_exists, isdir.
  monad_unfold. simpl.
  rewrite (bool_decide_eq_true_2 _ Hdst). simpl.
  rewrite (bool_decide_eq_true_2 _ Hsrc), (bool_decide_eq_true_2 _ Hdst). simpl.
  by rewrite (bool_decide_eq_true_2 _ Htriggers).
Qed.

(** X8.  [copy_config_files] cannot be run twice: the directory [triggers] of
    the Cassandra configuration is made with [os.mkdir], which raises on a
    directory that is there.  After a run that has returned, a second one
    raises [OSError]: it has copied the files of [dse] and [cassandra] again,
    and it does not get to the eight products that follow. *)
Theorem copy_config_files_once self w :
  (copy_config_files self w).1 = Ok tt →
  (copy_config_files self (copy_config_files self w).2).1 = Raise OSError ∧
  trace (copy_config_files self (copy_config_files self w).2).2
    = trace (copy_config_files self w).2 ++
      [EvCopyDirectory (product_conf (install_dir self) "dse")
         (product_conf (path self) "dse");
       EvCopyDirectory (product_conf (install_dir self) "cassandra")
         (product_conf (path self) "cassandra");
       EvMakedirs (get_conf_dir self ++ ["triggers"])].
Proof.
  intros Hok. unfold copy_config_files in *.
  set (cp := copy_product_config self) in *.
  set (rest := ["hadoop"; "sqoop"; "hive"; "tomcat"; "spark"; "shark"; "mahout"; "pig"]).
  change (for_each products cp)
    with (bind (cp "dse") (λ _, bind (cp "cassandra") (λ _, for_each rest cp))) in *.
  destruct (bind_inv _ _ _ _ Hok) as ([] & w1 & Hdse & Hok1 & ->).
  destruct (bind_inv _ _ _ _ Hok1) as ([] & w2 & Hcas & Hok2 & ->).
  set (w' := (for_each rest cp w2).2).
  assert (dirs w2 ⊆ dirs w') as Hsub2 by apply for_each_copy_dirs.
  assert (dirs w1 ⊆ dirs w') as Hsub1.
  { etrans; [|exact Hsub2].
    replace w2 with (cp "cassandra" w1).2 by (by rewrite Hcas).
    apply copy_product_config_dirs. }
  pose proof (copy_product_config_inv self "dse" w) as Hinv1.
  fold cp in Hinv1. rewrite Hdse in Hinv1. destruct (Hinv1 eq_refl) as (Hs1 & Hd1 & _).
  pose proof (copy_product_config_inv self "cassandra" w1) as Hinv2.
  fold cp in Hinv2. rewrite Hcas in Hinv2. destruct (Hinv2 eq_refl) as (Hs2 & Hd2 & Ht2).
  simpl in Hs1, Hd1, Hs2, Hd2, Ht2. specialize (Ht2 eq_refl).
  subst cp.
  rewrite (bind_ok _ _ _ _ _
             (copy_product_config_again self "dse" w' ltac:(set_solver) ltac:(set_solver)
                ltac:(done))).
  match goal with |- context [bind _ _ ?w] => set (w'' := w) end.
  assert (dirs w'' = dirs w') as Hdirs by done.
  rewrite (bind_raise _ _ _ _ _
             (copy_cassandra_config_again self w'' ltac:(rewrite Hdirs; set_solver)
                ltac:(rewrite Hdirs; set_solver) ltac:(rewrite Hdirs; set_solver))).
  split; [done|]. simpl. by rewrite <- !app_assoc.
Qed.

Lemma copy_config_files_once_witness :
  (copy_config_files (sample_node "none") full_install_world).1 = Ok tt ∧
  (copy_config_files (sample_node "none")
     (copy_config_files (sample_node "none") full_install_world).2).1 = Raise OSError.
Proof.
  assert ((copy_config_files (sample_node "none") full_install_world).1 = Ok tt) as Hok
    by (vm_compute; reflexivity).
  split; [exact Hok|].
  exact (proj1 (copy_config_files_once (sample_node "none") full_install_world Hok)).
Defined.

(** *** Importing the configuration again *)

Lemma copy_children_fold_lookup (src dst : fspath) (fs : gmap fspath content)
    (p : fspath) (l : list (fspath * content)) :
  (∀ q c, (q, c) ∈ l → fs !! q = Some c) →
  foldr (λ pc acc,
           match child_name src pc.1 with
           | Some name => <[dst ++ [name] := pc.2]> acc
           | None => acc
           end) fs l !! p
  = match child_name dst p with
    | Some name =>
        if decide (src ++ [name] ∈ l.*1)
        then fs !! (src ++ [name])
        else fs !! p
    | None => fs !! p
    end.
Proof.
  induction l as [|[q c] l IH]; intros Hl; simpl.
  - by destruct (child_name dst p).
  - specialize (IH (λ q c Hin, Hl q c (list_elem_of_further _ _ _ Hin))).
    assert (fs !! q = Some c) as Hq by (apply Hl; by left).
    destruct (child_name src q) as [name'|] eqn:Hchild.
    + apply child_name_Some in Hchild as ->.
      destruct (decide (p = dst ++ [name'])) as [->|Hp].
      * rewrite lookup_insert_eq.
        rewrite (proj2 (child_name_Some dst (dst ++ [name']) name') eq_refl).
        by rewrite decide_True by (by left).
      * rewrite lookup_insert_ne by done. rewrite IH.
        destruct (child_name dst p) as [name|] eqn:Hname; [|done].
        apply child_name_Some in Hname as ->.
        assert (name ≠ name') as Hne by congruence.
        destruct (decide (src ++ [name] ∈ l.*1)) as [Hin|Hin].
        -- by rewrite decide_True by (by right).
        -- rewrite decide_False; [done|].
           intros [[= ->]%(inj (app src))|?]%elem_of_cons; done.
    + rewrite IH. destruct (child_name dst p) as [name|]; [|done].
      destruct (decide (src ++ [name] ∈ l.*1)) as [Hin|Hin].
      * by rewrite decide_True by (by right).
      * rewrite decide_False; [done|].
        intros [Heq|?]%elem_of_cons; [|done].
        symmetry in Heq. apply child_name_Some in Heq. congruence.
Qed.

(** What [copy_directory] leaves at a path: the file of the same name in
    the source directory when the path lies directly in the target and the
    source has such a file, and what was there before otherwise. *)
Lemma copy_children_at (src dst : fspath) (fs : gmap fspath content) (p : fspath) :
  copy_children src dst fs !! p
  = match child_name dst p with
    | Some name =>
        match fs !! (src ++ [name]) with
        | Some c => Some c
        | None => fs !! p
        end
    | None => fs !! p
    end.
Proof.
  unfold copy_children. rewrite copy_children_fold_lookup.
  - destruct (child_name dst p) as [name|]; [|done].
    destruct (decide (src ++ [name] ∈ (map_to_list fs).*1)) as [Hin|Hin].
    + apply list_elem_of_fmap in Hin as ([q c] & -> & Hin).
      apply elem_of_map_to_list in Hin. simpl in *. by rewrite Hin.
    + destruct (fs !! (src ++ [name])) as [c|] eqn:Hc; [|done].
      exfalso. apply Hin. apply list_elem_of_fmap. exists (src ++ [name], c).
      split; [done|]. by apply elem_of_map_to_list.
  - intros q c Hin. by apply elem_of_map_to_list.
Qed.

Lemma update_dse_yaml_data_again keys (c n D D1 : dict) :
  update_dse_yaml_data keys c n D = Ok D1 →
  update_dse_yaml_data keys c n D1 = Ok D1.
Proof.
  intros Hfirst. apply update_dse_yaml_data_complete. intros k.
  pose proof (update_dse_yaml_data_sound _ _ _ _ _ k Hfirst) as Hk.
  destruct (decide (k = system_key_directory)) as [->|Hne].
  - rewrite lookup_insert_eq in *. done.
  - rewrite lookup_insert_ne in * by done.
    destruct ((n ∪ c) !! k); [|done]. by eapply override_entry_idempotent.
Qed.

Lemma _update_dse_yaml_inv_dirs self w :
  (_update_dse_yaml self w).1 = Ok tt →
  dse_conf_dir self ∈ dirs w ∧ dse_yaml self ∉ dirs w.
Proof.
  unfold _update_dse_yaml, read_file, write_file. monad_unfold. simpl.
  destruct (files w !! dse_yaml self) as [[[| | | | |base]| |]|]; simpl; try done.
  destruct (dse_config_options w) as [n|]; simpl; [|done].
  destruct (update_dse_yaml_data _ _ n base) as [merged|]; simpl; [|done].
  destruct (bool_decide (parent (dse_yaml self) ∈ dirs w)) eqn:Hparent; simpl; [|done].
  destruct (bool_decide (dse_yaml self ∈ dirs w)) eqn:Hyaml; simpl; [done|].
  apply bool_decide_eq_true in Hparent. apply bool_decide_eq_false in Hyaml.
  intros _. split; [|done].
  unfold dse_yaml, parent in Hparent. by rewrite removelast_last in Hparent.
Qed.

Lemma import_dse_config_files_inv self w :
  (import_dse_config_files self w).1 = Ok tt →
  ∃ wa,
    files wa = files w ∧ dse_config_options wa = dse_config_options w ∧
    install_dse_conf self ∈ dirs wa ∧ dse_conf_dir self ∈ dirs wa ∧
    import_dse_config_files self w
      = _update_dse_yaml self
          (set_files (copy_children (install_dse_conf self) (dse_conf_dir self)) wa).
Proof.
  intros Hok. unfold import_dse_config_files in *.
  destruct (bind_inv _ _ _ _ Hok) as ([] & w0 & Hconfig & Hok0 & ->).
  destruct (bind_inv _ _ _ _ Hok0) as (there & w0' & Hthere & Hok1 & ->).
  destruct (bind_inv _ _ _ _ Hok1) as ([] & w1 & Hmake & Hok2 & ->).
  destruct (bind_inv _ _ _ _ Hok2) as ([] & w2 & Hcopy & Hok3 & ->).
  unfold _update_config, emit, modify in Hconfig. injection Hconfig as <-.
  unfold isdir, get in Hthere. injection Hthere as <- <-.
  pose proof (copy_directory_inv (install_dse_conf self) (dse_conf_dir self) w1) as Hinv.
  rewrite Hcopy in Hinv.
  destruct (Hinv eq_refl) as (Hsrc & Hdst & [= ->]).
  exists (add_event (EvCopyDirectory (install_dse_conf self) (dse_conf_dir self)) w1).
  split_and!; try done.
  - simpl. destruct (bool_decide _) in Hmake; simpl in Hmake.
    + by injection Hmake as <-.
    + by apply makedirs_made in Hmake as (_ & _ & ->).
  - simpl. destruct (bool_decide _) in Hmake; simpl in Hmake.
    + by injection Hmake as <-.
    + unfold makedirs, path_exists in Hmake. monad_unfold. simpl in Hmake.
      destruct (_ || _) in Hmake; [done|]. by injection Hmake as <-.
Qed.

(** X9.  [import_dse_config_files] can be run again: after a run that has
    returned, a second one returns as well and leaves every file and every
    directory as the first one has left them (the directory of the
    installation not being the one of the node). *)
Theorem import_dse_config_files_again self w :
  install_dse_conf self ≠ dse_conf_dir self →
  (import_dse_config_files self w).1 = Ok tt →
  (import_dse_config_files self (import_dse_config_files self w).2).1 = Ok tt ∧
  files (import_dse_config_files self (import_dse_config_files self w).2).2
    = files (import_dse_config_files self w).2 ∧
  dirs (import_dse_config_files self (import_dse_config_files self w).2).2
    = dirs (import_dse_config_files self w).2.
Proof.
  intros Hdistinct Hok.
  set (src := install_dse_conf self) in *. set (dst := dse_conf_dir self) in *.
  destruct (import_dse_config_files_inv self w Hok)
    as (wa & Hfiles & Hattr & Hsrc & Hdst & Hrun).
  fold src dst in Hsrc, Hdst, Hrun.
  rewrite Hrun in *. clear Hrun.
  set (wc := set_files (copy_children src dst) wa) in *.
  destruct (_update_dse_yaml_inv_dirs self wc Hok) as [_ Hnodir].
  destruct (_update_dse_yaml_inv self wc Hok)
    as (base & n & merged & Hbase & Hn & Hmerge & ->).
  simpl in Hbase, Hn, Hnodir. cbn [snd].
  set (F := copy_children src dst (files wa)) in *.
  set (w1 := set_files _ _).
  assert (files w1 = <[dse_yaml self := Yaml (VMap merged)]> F) as Hfiles1 by done.
  assert (dirs w1 = dirs wa) as Hdirs1 by done.
  (* the files of the installation are the ones they were *)
  assert (∀ name, files w1 !! (src ++ [name]) = files wa !! (src ++ [name])) as Hinstall.
  { intros name. rewrite Hfiles1.
    rewrite lookup_insert_ne.
    2:{ unfold dse_yaml. fold dst. intros [? _]%app_inj_tail. by apply Hdistinct. }
    subst F. rewrite copy_children_at.
    destruct (child_name dst (src ++ [name])) as [name'|] eqn:Hchild; [|done].
    apply child_name_Some in Hchild. apply app_inj_tail in Hchild as [? _]. done. }
  set (G := copy_children src dst (files w1)).
  assert (∀ p, p ≠ dse_yaml self → G !! p = F !! p) as Hsame.
  { intros p Hp. subst G F. rewrite !copy_children_at.
    destruct (child_name dst p) as [name|] eqn:Hchild.
    - rewrite Hinstall. destruct (files wa !! (src ++ [name])) eqn:Hs; [done|].
      rewrite Hfiles1, lookup_insert_ne by done.
      by rewrite copy_children_at, Hchild, Hs.
    - rewrite Hfiles1, lookup_insert_ne by done. by rewrite copy_children_at, Hchild. }
  assert (∃ base2, G !! dse_yaml self = Some (Yaml (VMap base2)) ∧
            update_dse_yaml_data (render (path self ++ ["keys"]))
              (cluster_dse_config_options (the_cluster self)) n base2 = Ok merged)
    as (base2 & Hbase2 & Hmerge2).
  { subst G. rewrite copy_children_at.
    assert (child_name dst (dse_yaml self) = Some "dse.yaml") as ->
      by (by apply child_name_Some).
    rewrite Hinstall. subst F. rewrite copy_children_at in Hbase.
    assert (child_name dst (dse_yaml self) = Some "dse.yaml") as Hc
      by (by apply child_name_Some).
    rewrite Hc in Hbase.
    destruct (files wa !! (src ++ ["dse.yaml"])) as [c|].
    - exists base. by simplify_eq.
    - exists merged. rewrite Hfiles1, lookup_insert_eq. split; [done|].
      by eapply update_dse_yaml_data_again. }
  unfold import_dse_config_files. fold src dst.
  step. step. simpl. rewrite (bool_decide_eq_true_2 (dst ∈ dirs wa)) by done. simpl.
  step. erewrite bind_ok by (apply copy_directory_ok; simpl; done).
  erewrite (_update_dse_yaml_ok self _ base2 n merged); [|simpl; try done..].
  - split_and!; [done| |done].
    change (<[dse_yaml self := Yaml (VMap merged)]> G = files w1).
    rewrite Hfiles1.
    apply map_eq. intros p. destruct (decide (p = dse_yaml self)) as [->|Hp].
    + by rewrite !lookup_insert_eq.
    + rewrite !lookup_insert_ne by done. by apply Hsame.
Qed.

Lemma import_dse_config_files_again_witness :
  install_dse_conf (sample_node "none") ≠ dse_conf_dir (sample_node "none") ∧
  (import_dse_config_files (sample_node "none") install_world).1 = Ok tt ∧
  (import_dse_config_files (sample_node "none") imported_world).1 = Ok tt ∧
  files (import_dse_config_files (sample_node "none") imported_world).2
    = files imported_world ∧
  dirs (import_dse_config_files (sample_node "none") imported_world).2
    = dirs imported_world.
Proof.
  assert (install_dse_conf (sample_node "none") ≠ dse_conf_dir (sample_node "none"))
    as Hdistinct by (intros [=]).
  assert ((import_dse_config_files (sample_node "none") install_world).1 = Ok tt) as Hok
    by (vm_compute; reflexivity).
  split_and!; [exact Hdistinct|exact Hok|..];
    apply (import_dse_config_files_again (sample_node "none") install_world
             Hdistinct Hok).
Defined.
End copies.

(** ** The agent *)

Section agent.

Lemma strip_prefix_app (dir rest : fspath) : strip_prefix dir (dir ++ rest) = Some rest.
Proof.
  unfold strip_prefix. rewrite take_app_length, drop_app_length.
  by destruct (decide (dir = dir)).
Qed.

Lemma strip_prefix_Some (dir p rest : fspath) :
  strip_prefix dir p = Some rest → p = dir ++ rest.
Proof.
  unfold strip_prefix. destruct (decide _) as [Htake|]; [|done].
  intros [= <-]. by rewrite <- Htake at 1; rewrite take_drop.
Qed.

Lemma copytree_made (src dst : fspath) w :
  src ∈ dirs w → dst ∉ dirs w → files w !! dst = None →
  copytree src dst w
    = (Ok tt,
       set_dirs (λ d, d ∪ list_to_set (ancestors dst)
                        ∪ list_to_set (omap (move_below src dst) (elements d)))
         (set_files (λ fs,
            foldr (λ pc acc,
                     match move_below src dst pc.1 with
                     | Some q => <[q := pc.2]> acc
                     | None => acc
                     end) fs (map_to_list fs))
            (add_event (EvCopyTree src dst) w))).
Proof.
  intros Hsrc Hdst Hfile. unfold copytree, isdir, path_exists. monad_unfold. simpl.
  rewrite (bool_decide_eq_true_2 _ Hsrc), (bool_decide_eq_false_2 _ Hdst), Hfile.
  by rewrite bool_decide_eq_false_2 by (by intros [? [=]]).
Qed.

Lemma copytree_target (src dst : fspath) (d : gset fspath) :
  src ∈ d →
  dst ∈ d ∪ list_to_set (ancestors dst)
          ∪ list_to_set (omap (move_below src dst) (elements d)).
Proof.
  intros Hsrc. apply elem_of_union. right. apply elem_of_list_to_set.
  apply list_elem_of_omap. exists src. split; [by apply elem_of_elements|].
  unfold move_below. rewrite <- (app_nil_r src) at 2.
  by rewrite strip_prefix_app; simpl; rewrite app_nil_r.
Qed.

Lemma _copy_agent_cases self w :
  _copy_agent self w = (Ok tt, w) ∨
  (∃ e, (_copy_agent self w).1 = Raise e) ∨
  agent_dir self ∈ dirs (_copy_agent self w).2.
Proof.
  unfold _copy_agent, path_exists, copytree, isdir. monad_unfold. simpl.
  fold (agent_dir self).
  destruct (_ && _); simpl; [|by left].
  destruct (bool_decide (install_dir self ++ ["datastax-agent"] ∈ dirs w)) eqn:Hsrc;
    simpl; [|right; left; by eexists].
  apply bool_decide_eq_true in Hsrc.
  destruct (_ || _); simpl; [right; left; by eexists|].
  right. right. by apply copytree_target.
Qed.

(** X10.  [_copy_agent] copies once: it leaves an agent directory of the node
    as it is, and to run it a second time changes nothing. *)
Theorem copy_agent_idempotent self w :
  ((path_exists (agent_dir self) w).1 = Ok true → _copy_agent self w = (Ok tt, w)) ∧
  bind (_copy_agent self) (λ _, _copy_agent self) w = _copy_agent self w.
Proof.
  assert (∀ w', (path_exists (agent_dir self) w').1 = Ok true →
                _copy_agent self w' = (Ok tt, w')) as Hkeep.
  { intros w'. unfold _copy_agent, path_exists, agent_dir. monad_unfold. simpl.
    intros [= ->]. by rewrite andb_false_r. }
  split; [apply Hkeep|].
  destruct (_copy_agent_cases self w) as [Hnone|[[e He]|Hmade]].
  - by rewrite (bind_ok _ _ _ _ _ Hnone).
  - unfold bind. by destruct (_copy_agent self w) as [[|] ?].
  - unfold bind. destruct (_copy_agent self w) as [[[]|] w1]; [|done].
    apply Hkeep. simpl in *. by rewrite (bool_decide_eq_true_2 _ Hmade).
Qed.

Lemma copy_agent_idempotent_witness :
  (path_exists (agent_dir (sample_node "none")) agent_world).1 = Ok true ∧
  _copy_agent (sample_node "none") agent_world = (Ok tt, agent_world).
Proof.
  assert ((path_exists (agent_dir (sample_node "none")) agent_world).1 = Ok true) as Hthere
    by (vm_compute; reflexivity).
  split; [exact Hthere|].
  exact (proj1 (copy_agent_idempotent (sample_node "none") agent_world) Hthere).
Defined.

Lemma copytree_fold_lookup (src dst rest : fspath) (fs : gmap fspath content)
    (c : content) (l : list (fspath * content)) :
  (∀ q c', (q, c') ∈ l → fs !! q = Some c') →
  fs !! (src ++ rest) = Some c →
  src ++ rest ∈ l.*1 →
  foldr (λ pc acc,
           match move_below src dst pc.1 with
           | Some q => <[q := pc.2]> acc
           | None => acc
           end) fs l !! (dst ++ rest) = Some c.
Proof.
  intros Hl Hc. induction l as [|[q c'] l IH]; simpl; intros Hin.
  { by apply elem_of_nil in Hin. }
  assert (fs !! q = Some c') as Hq by (apply Hl; by left).
  specialize (IH (λ q c Hin, Hl q c (list_elem_of_further _ _ _ Hin))).
  unfold move_below at 1.
  destruct (strip_prefix src q) as [rest'|] eqn:Hstrip; simpl.
  - apply strip_prefix_Some in Hstrip as ->.
    destruct (decide (rest' = rest)) as [->|Hne].
    + rewrite lookup_insert_eq. congruence.
    + rewrite lookup_insert_ne by (by intros ?%(inj (app dst))).
      apply IH. apply elem_of_cons in Hin as [?%(inj (app src))|Hin]; done.
  - apply IH. apply elem_of_cons in Hin as [<-|Hin]; [|done].
    by rewrite strip_prefix_app in Hstrip.
Qed.

(** X11.  The constructor gives a node of a cluster with opscenter an agent of
    its own: when the installation has an agent directory and the node has
    none, the node has one after the constructor, and every file below the
    one of the installation is below the one of the node, at the same place
    and with the same content. *)
Theorem constructor_copies_agent self w rest c :
  hasOpscenter (the_cluster self) = true →
  install_dir self ++ ["datastax-agent"] ∈ dirs w →
  agent_dir self ∉ dirs w →
  files w !! agent_dir self = None →
  files w !! (install_dir self ++ ["datastax-agent"] ++ rest) = Some c →
  (__init__ self w).1 = Ok tt ∧
  agent_dir self ∈ dirs (__init__ self w).2 ∧
  files (__init__ self w).2 !! (agent_dir self ++ rest) = Some c.
Proof.
  intros Hops Hsrc Hdst Hfile Hc.
  unfold __init__, Node_init, get_cassandra_version, _copy_agent, path_exists.
  rewrite Hops. monad_unfold. simpl. fold (agent_dir self).
  rewrite (bool_decide_eq_true_2 _ Hsrc).
  rewrite (bool_decide_eq_false_2 _ Hdst), Hfile.
  rewrite (bool_decide_eq_false_2 (is_Some None)) by (by intros [? [=]]). simpl.
  rewrite copytree_made by done. simpl. split_and!; [done| |].
  - by apply copytree_target.
  - rewrite app_assoc in Hc. apply (copytree_fold_lookup _ _ _ _ c); [|done|].
    + intros q c' Hin. by apply elem_of_map_to_list.
    + apply list_elem_of_fmap. exists (((install_dir self ++ ["datastax-agent"]) ++ rest), c).
      split; [done|]. by apply elem_of_map_to_list.
Qed.

(** X12.  [_start_agent] never writes over an [address.yaml] that is there, and
    without agent directory it does nothing. *)
Theorem start_agent_keeps_address_yaml self w :
  (∀ c, files w !! (agent_dir self ++ ["conf"; "address.yaml"]) = Some c →
        files (_start_agent self w).2 !! (agent_dir self ++ ["conf"; "address.yaml"])
          = Some c) ∧
  ((path_exists (agent_dir self) w).1 = Ok false → _start_agent self w = (Ok tt, w)).
Proof.
  split.
  - intros c Hc.
    unfold _start_agent, _write_agent_address_yaml, _write_agent_log4j_properties,
      write_file, path_exists.
    monad_unfold. simpl.
    destruct (bool_decide (agent_dir self ∈ dirs w) || _); simpl; [|done].
    rewrite Hc. rewrite (bool_decide_eq_true_2 (is_Some (Some c))) by by eexists.
    rewrite orb_true_r.
    destruct (_ && _); simpl; [|done].
    destruct (_ || _); simpl;
      (rewrite lookup_insert_ne; [done|by intros [=]%(inj (app (agent_dir self)))]).
  - unfold _start_agent, path_exists. monad_unfold. simpl. by intros [= ->].
Qed.

Lemma start_agent_keeps_address_yaml_witness :
  (path_exists (agent_dir (sample_node "none")) running_world).1 = Ok false ∧
  _start_agent (sample_node "none") running_world = (Ok tt, running_world) ∧
  files edited_agent_world !! (agent_dir (sample_node "none") ++ ["conf"; "address.yaml"])
    = Some (Text "stomp_interface: 10.0.0.1") ∧
  files (_start_agent (sample_node "none") edited_agent_world).2
    !! (agent_dir (sample_node "none") ++ ["conf"; "address.yaml"])
    = Some (Text "stomp_interface: 10.0.0.1").
Proof.
  assert ((path_exists (agent_dir (sample_node "none")) running_world).1 = Ok false)
    as Hmissing by (vm_compute; reflexivity).
  assert (files edited_agent_world
            !! (agent_dir (sample_node "none") ++ ["conf"; "address.yaml"])
          = Some (Text "stomp_interface: 10.0.0.1")) as Hedited
    by (vm_compute; reflexivity).
  split_and!; [exact Hmissing| |exact Hedited|].
  - exact (proj2 (start_agent_keeps_address_yaml (sample_node "none") running_world)
             Hmissing).
  - exact (proj1 (start_agent_keeps_address_yaml (sample_node "none")
                    edited_agent_world) _ Hedited).
Defined.

Lemma constructor_copies_agent_witness :
  (__init__ (sample_node "none") agent_install_world).1 = Ok tt ∧
  agent_dir (sample_node "none")
    ∈ dirs (__init__ (sample_node "none") agent_install_world).2 ∧
  files (__init__ (sample_node "none") agent_install_world).2
    !! (agent_dir (sample_node "none") ++ ["bin"; "datastax-agent"])
    = Some (Text "#!/bin/sh").
Proof.
  apply (constructor_copies_agent (sample_node "none") agent_install_world
           ["bin"; "datastax-agent"] (Text "#!/bin/sh")).
  - reflexivity.
  - by_compute.
  - by_compute.
  - vm_compute. reflexivity.
  - vm_compute. reflexivity.
Defined.

(** X13.  A first write of [address.yaml] that fails is not made good: the file
    is opened, and so made, before the thrift interface is looked up; for
    a node without thrift interface [_write_agent_address_yaml] raises and
    leaves an empty file, which every later call takes for the descriptor
    and leaves as it is. *)
Theorem address_yaml_unbound_interface self dir w :
  network_interfaces self !! "thrift" = None ∨
  network_interfaces self !! "thrift" = Some None →
  dir ++ ["conf"] ∈ dirs w →
  dir ++ ["conf"; "address.yaml"] ∉ dirs w →
  files w !! (dir ++ ["conf"; "address.yaml"]) = None →
  let first := _write_agent_address_yaml self dir w in
  (first.1 = Raise KeyError ∨ first.1 = Raise TypeError) ∧
  files first.2 !! (dir ++ ["conf"; "address.yaml"]) = Some (Text EmptyString) ∧
  _write_agent_address_yaml self dir first.2 = (Ok tt, first.2).
Proof.
  intros Hthrift Hconf Hnodir Hnofile. cbv zeta.
  assert (parent (dir ++ ["conf"; "address.yaml"]) = dir ++ ["conf"]) as Hparent.
  { unfold parent.
    change (dir ++ ["conf"; "address.yaml"]) with (dir ++ ["conf"] ++ ["address.yaml"]).
    by rewrite app_assoc, removelast_last. }
  assert (∀ w', is_Some (files w' !! (dir ++ ["conf"; "address.yaml"])) →
            _write_agent_address_yaml self dir w' = (Ok tt, w')) as Hskip.
  { intros w' Hsome. unfold _write_agent_address_yaml, path_exists. monad_unfold.
    simpl. by rewrite (bool_decide_eq_true_2 _ Hsome), orb_true_r. }
  assert (_write_agent_address_yaml self dir w
          = (match network_interfaces self !! "thrift" with
             | None => Raise KeyError
             | _ => Raise TypeError
             end,
             set_files <[dir ++ ["conf"; "address.yaml"] := Text EmptyString]>
               (add_event (EvWrite (dir ++ ["conf"; "address.yaml"])) w))) as ->.
  { unfold _write_agent_address_yaml, path_exists, write_file. monad_unfold. simpl.
    rewrite (bool_decide_eq_false_2 _ Hnodir), Hnofile.
    rewrite (bool_decide_eq_false_2 (is_Some None)) by (by intros [? [=]]). simpl.
    rewrite Hparent, (bool_decide_eq_true_2 _ Hconf). simpl.
    rewrite (bool_decide_eq_false_2 _ Hnodir). simpl.
    by destruct Hthrift as [-> | ->]. }
  simpl. split_and!.
  - destruct Hthrift as [-> | ->]; [by left|by right].
  - by rewrite lookup_insert_eq.
  - apply Hskip. simpl. rewrite lookup_insert_eq. by eexists.
Qed.

Lemma address_yaml_unbound_interface_witness :
  let dir := agent_dir headless_node in
  let first := _write_agent_address_yaml headless_node dir agent_conf_world in
  (first.1 = Raise KeyError ∨ first.1 = Raise TypeError) ∧
  files first.2 !! (dir ++ ["conf"; "address.yaml"]) = Some (Text EmptyString) ∧
  _write_agent_address_yaml headless_node dir first.2 = (Ok tt, first.2).
Proof.
  apply (address_yaml_unbound_interface headless_node (agent_dir headless_node)
           agent_conf_world).
  - right. reflexivity.
  - by_compute.
  - by_compute.
  - vm_compute. reflexivity.
Defined.

(** *** Stopping the agent *)






End agent.

(** ** More on [start] *)

(** The walk through [start] up to the place where the script of the
    launcher has been copied. *)
Ltac start_prefix :=
  unfold start;
  apply hoare_bind_true; [repeat hoare_walk|];
  (let running := fresh "running" in
   intros running; destruct running; [apply hoare_raise|]);
  apply hoare_bind_true; [repeat hoare_walk|intros _];
  apply hoare_bind_true; [repeat hoare_walk|intros ?];
  cbv zeta;
  apply hoare_bind_true; [repeat hoare_walk|intros _].

Section starting.

Lemma for_each_busy_socket (l : list (option (string * Z))) (address : string * Z) w :
  Some address ∈ l →
  address ∈ busy w →
  for_each l (λ itf,
    match itf, @None string with
    | Some address, None => check_socket_available address
    | _, _ => ret tt
    end) w = (Raise UnavailableSocketError, w).
Proof.
  intros Hin Hbusy. induction l as [|itf l IH]; [by apply elem_of_nil in Hin|].
  simpl. unfold bind.
  destruct itf as [a|]; simpl.
  - unfold check_socket_available, bind, get. simpl.
    destruct (bool_decide (a ∈ busy w)) eqn:Ha; simpl; [done|].
    apply IH. apply elem_of_cons in Hin as [[= ->]|Hin]; [|done].
    by rewrite bool_decide_eq_true_2 in Ha.
  - apply IH. by apply elem_of_cons in Hin as [[=]|Hin].
Qed.

(** X17.  [start] checks the interfaces of the node before it does anything:
    when one of them is in use, and no address is being replaced, it raises
    in the world it was called in; nothing has been copied, no process has
    been started. *)
Theorem start_socket_busy self o w role address :
  (is_running w).1 = Ok false →
  replace_address o = None →
  network_interfaces self !! role = Some (Some address) →
  address ∈ busy w →
  start self o w = (Raise UnavailableSocketError, w).
Proof.
  intros Hdown Hreplace Hitf Hbusy. unfold start.
  unfold bind at 1. unfold is_running, get in *. simpl in *. injection Hdown as ->.
  apply bind_raise. rewrite Hreplace. apply (for_each_busy_socket _ address); [|done].
  apply list_elem_of_fmap. exists (role, Some address). split; [done|].
  by apply elem_of_map_to_list.
Qed.

Lemma start_socket_busy_witness :
  let w := set_live (λ _, ∅) agent_world in
  start (sample_node "none") default_options
    {| files := files w; dirs := dirs w; live := live w;
       busy := {[ ("127.0.0.1", 9160) ]}; logs := logs w; ccm_config := ccm_config w;
       launch_pid := launch_pid w; workload := workload w; pid := pid w;
       dse_config_options := dse_config_options w; trace := trace w |}
  = (Raise UnavailableSocketError,
     {| files := files w; dirs := dirs w; live := live w;
        busy := {[ ("127.0.0.1", 9160) ]}; logs := logs w; ccm_config := ccm_config w;
        launch_pid := launch_pid w; workload := workload w; pid := pid w;
        dse_config_options := dse_config_options w; trace := trace w |}).
Proof.
  apply (start_socket_busy (sample_node "none") default_options _ "thrift"
           ("127.0.0.1", 9160)).
  - vm_compute. reflexivity.
  - reflexivity.
  - vm_compute. reflexivity.
  - by_compute.
Defined.

(** X18.  Profiling cannot be had without the agent of the profiler: with
    [profile_options] and no [yourkit_agent] in the configuration of ccm,
    [start] does not return and starts no process. *)
Theorem start_profile_without_agent self o profile w :
  profile_options o = Some profile →
  ccm_config w !! "yourkit_agent" = None →
  (∀ a, (start self o w).1 ≠ Ok a) ∧
  ∃ evs, trace (start self o w).2 = trace w ++ evs ∧
         Forall (λ ev, ¬ is_spawn ev) evs.
Proof.
  intros Hprofile Hconfig.
  assert (hoare (λ w, ccm_config w !! "yourkit_agent" = None) (λ ev, ¬ is_spawn ev)
            (λ _ : unit, False) (start self o)) as Hrun.
  { start_prefix.
    apply (hoare_bind (λ _, False)); [|by intros ? []].
    rewrite Hprofile.
    apply (hoare_bind (λ config : gmap string string, config !! "yourkit_agent" = None));
      [by apply hoare_get|].
    intros config ->. apply hoare_raise. }
  destruct (Hrun w Hconfig) as (evs & Htrace & Hevs & _ & Hnever).
  split; [|by exists evs]. intros [] Hok. exact (Hnever tt Hok).
Qed.

Lemma start_profile_without_agent_witness :
  (∀ a, (start (sample_node "none") profiling_options install_world).1 ≠ Ok a) ∧
  ∃ evs, trace (start (sample_node "none") profiling_options install_world).2
           = trace install_world ++ evs ∧
         Forall (λ ev, ¬ is_spawn ev) evs.
Proof.
  exact (start_profile_without_agent (sample_node "none") profiling_options ∅
           install_world eq_refl eq_refl).
Defined.

Lemma launch_flags_ok (tags : list string) :
  let flags := (if has_workload "hadoop" tags then ["-t"] else [])
               ++ (if has_workload "solr" tags then ["-s"] else [])
               ++ (if has_workload "spark" tags then ["-k"] else [])
               ++ (if has_workload "cfs" tags then ["-c"] else []) in
  sublist flags ["-t"; "-s"; "-k"; "-c"] ∧
  ("-t" ∈ flags ↔ "hadoop" ∈ tags) ∧
  ("-s" ∈ flags ↔ "solr" ∈ tags) ∧
  ("-k" ∈ flags ↔ "spark" ∈ tags) ∧
  ("-c" ∈ flags ↔ "cfs" ∈ tags).
Proof.
  unfold has_workload. cbv zeta.
  destruct (bool_decide ("hadoop" ∈ tags)) eqn:Hhadoop;
    destruct (bool_decide ("solr" ∈ tags)) eqn:Hsolr;
    destruct (bool_decide ("spark" ∈ tags)) eqn:Hspark;
    destruct (bool_decide ("cfs" ∈ tags)) eqn:Hcfs;
    repeat match goal with
           | H : bool_decide _ = true |- _ => apply bool_decide_eq_true in H
           | H : bool_decide _ = false |- _ => apply bool_decide_eq_false in H
           end;
    simpl;
    (split; [repeat first [apply sublist_nil | apply sublist_skip | apply sublist_cons]|]);
    split_and!;
    (split;
     [ first [ done
             | intros Hin; exfalso; revert Hin;
               apply (bool_decide_eq_false_1 _); vm_compute; reflexivity ]
     | first [ done
             | intros _; apply (bool_decide_eq_true_1 _); vm_compute; reflexivity ] ]).
Qed.

Lemma start_launch_args self o tags :
  hoare (λ w, workload w = Some tags) (launch_args_ok self o tags) (λ _ : unit, True)
    (start self o).
Proof.
  start_prefix.
  apply hoare_bind_true; [repeat hoare_walk|intros _].
  apply hoare_bind_true; [repeat hoare_walk|intros _].
  cbv zeta.
  apply (hoare_bind (λ t, t = Some tags)); [by apply hoare_get|intros ? ->].
  apply hoare_bind_true; [repeat hoare_walk|intros env].
  apply hoare_bind_true; [|intros ?; repeat hoare_walk].
  unfold popen_launcher.
  apply hoare_bind_true; [|intros ?; repeat hoare_walk].
  apply hoare_emit; [done| |done].
  simpl.
  exists ((if has_workload "hadoop" tags then ["-t"] else [])
          ++ (if has_workload "solr" tags then ["-s"] else [])
          ++ (if has_workload "spark" tags then ["-k"] else [])
          ++ (if has_workload "cfs" tags then ["-c"] else [])).
  split; [|apply launch_flags_ok].
  destruct (replace_token o), (replace_address o), (use_jna o); simpl;
    rewrite <- ?app_assoc; simpl; rewrite <- ?app_assoc; reflexivity.
Qed.

(** X19.  The flags of the workload.  After [set_workload(tags)], a launcher
    that [start] runs gets one flag for each of [hadoop], [solr], [spark]
    and [cfs] that is among [tags], in this order whatever the order of the
    tags, between its verb and the pid file; then come the options of the
    call, and the arguments of the caller last. *)
Theorem start_workload_flags self o tags w :
  ∃ evs,
    trace (bind (set_workload (Some tags)) (λ _, start self o) w).2
      = trace w ++ EvUpdateConfig :: evs ∧
    Forall (launch_args_ok self o tags) evs ∧
    ((bind (set_workload (Some tags)) (λ _, start self o) w).1 = Ok tt →
     ∃ args env, EvPopen args (Some env) ∈ evs).
Proof.
  assert (set_workload (Some tags) w
          = (Ok tt, add_event EvUpdateConfig (set_workload_attr (Some tags) w))) as Hset
    by done.
  rewrite (bind_ok _ _ _ _ _ Hset).
  destruct (start_launch_args self o tags
              (add_event EvUpdateConfig (set_workload_attr (Some tags) w)) eq_refl)
    as (evs & Htrace & Hevs & _).
  exists evs. split_and!; [|done|].
  - rewrite Htrace. simpl. by rewrite <- app_assoc.
  - intros Hok. destruct (start_spawns self o _ tt Hok)
      as (evs' & args & env & Htrace' & Hin).
    rewrite Htrace in Htrace'. apply app_inv_head in Htrace' as ->. eauto.
Qed.

Lemma start_debug_options self o d :
  debug o = true →
  (∃ ip port c, network_interfaces self !! "thrift" = Some (Some (ip, port)) ∧
                last_char ip = Some c ∧ Ascii.is_nat c = Some d) →
  hoare (λ _, True) (debug_env_ok d) (λ _ : unit, True) (start self o).
Proof.
  intros Hdebug (ip & port & c & Hthrift & Hlast & Hdigit).
  start_prefix.
  apply hoare_bind_true; [repeat hoare_walk|intros _].
  apply hoare_bind_true; [repeat hoare_walk|intros _].
  cbv zeta.
  apply hoare_bind_true; [repeat hoare_walk|intros tags].
  rewrite Hdebug, Hthrift, Hlast, Hdigit.
  apply (hoare_bind (λ env : environ, env !! "JVM_EXTRA_OPTS" = Some (debug_options d)));
    [apply hoare_ret; apply lookup_insert_eq|intros env Henv].
  apply hoare_bind_true; [|intros ?; repeat hoare_walk].
  unfold popen_launcher.
  apply hoare_bind_true; [|intros ?; repeat hoare_walk].
  apply hoare_emit; [done| |done].
  simpl. destruct (decide _); [|done].
  by rewrite !lookup_insert_ne by done.
Qed.

Lemma is_nat_digit c d : Ascii.is_nat c = Some d → (d ≤ 9)%nat.
Proof.
  unfold Ascii.is_nat. repeat (case_match; try done); intros [= <-]; lia.
Qed.

(** X20.  The port of the debugger.  With [debug], every launcher that [start]
    runs gets [JVM_EXTRA_OPTS] with the port [2345 + d], where [d] is the
    last digit of the thrift address of the node: a port from [2345] to
    [2354], the same for two nodes whose addresses end in the same digit.
    When the address does not end in a digit, [start] does not return and
    starts no process. *)
Theorem start_debug_port self o ip port w :
  debug o = true →
  network_interfaces self !! "thrift" = Some (Some (ip, port)) →
  (∀ c d, last_char ip = Some c → Ascii.is_nat c = Some d →
     (d ≤ 9)%nat ∧
     ∃ evs, trace (start self o w).2 = trace w ++ evs ∧
            Forall (debug_env_ok d) evs ∧
            ((start self o w).1 = Ok tt → ∃ args env, EvPopen args (Some env) ∈ evs)) ∧
  ((∀ c, last_char ip = Some c → Ascii.is_nat c = None) →
     (∀ a, (start self o w).1 ≠ Ok a) ∧
     ∃ evs, trace (start self o w).2 = trace w ++ evs ∧
            Forall (λ ev, ¬ is_spawn ev) evs).
Proof.
  intros Hdebug Hthrift. split.
  - intros c d Hlast Hdigit. split; [by eapply is_nat_digit|].
    destruct (start_debug_options self o d Hdebug
                ltac:(by exists ip, port, c) w Logic.I)
      as (evs & Htrace & Hevs & _).
    exists evs. split_and!; [done..|].
    intros Hok. destruct (start_spawns self o w tt Hok)
      as (evs' & args & env & Htrace' & Hin).
    rewrite Htrace in Htrace'. apply app_inv_head in Htrace' as ->. eauto.
  - intros Hnodigit.
    assert (hoare (λ _, True) (λ ev, ¬ is_spawn ev) (λ _ : unit, False) (start self o))
      as Hrun.
    { start_prefix.
      apply hoare_bind_true; [repeat hoare_walk|intros _].
      apply hoare_bind_true; [repeat hoare_walk|intros _].
      cbv zeta.
      apply hoare_bind_true; [repeat hoare_walk|intros tags].
      apply (hoare_bind (λ _, False)); [|by intros ? []].
      rewrite Hdebug, Hthrift.
      destruct (last_char ip) as [c|] eqn:Hlast; [|apply hoare_raise].
      rewrite (Hnodigit c eq_refl). apply hoare_raise. }
    destruct (Hrun w Logic.I) as (evs & Htrace & Hevs & _ & Hnever).
    split; [|by exists evs]. intros [] Hok. exact (Hnever tt Hok).
Qed.

Lemma start_debug_port_witness :
  (1 ≤ 9)%nat ∧
  ∃ evs, trace (start (sample_node "none") debugging_options install_world).2
           = trace install_world ++ evs ∧
         Forall (debug_env_ok 1) evs ∧
         ((start (sample_node "none") debugging_options install_world).1 = Ok tt →
          ∃ args env, EvPopen args (Some env) ∈ evs).
Proof.
  exact (proj1 (start_debug_port (sample_node "none") debugging_options "127.0.0.1" 9160
                  install_world eq_refl eq_refl)
           "1"%char 1%nat eq_refl eq_refl).
Defined.
End starting.

(** ** More on the XML property lists *)

Section xml_more.
Import Xml.




Lemma set_text_twice v e : set_text v (set_text v e) = set_text v e.
Proof. by destruct e. Qed.

Lemma set_children_twice c c' e : set_children c (set_children c' e) = set_children c e.
Proof. by destruct e. Qed.













(** X23.  The empty name selects nothing: the test of [text()] against
    an empty literal holds of no element, so an override for the empty name
    adds a property each time it is applied, whatever the list holds and
    whatever the value is. *)
Theorem apply_property_empty_name value props :
  apply_property EmptyString value props
    = Ok (props ++ [new_property EmptyString value]) ∧
  rbind (apply_property EmptyString value props) (apply_property EmptyString value)
    = Ok (props ++ [new_property EmptyString value; new_property EmptyString value]).
Proof.
  assert (∀ l, apply_property EmptyString value l
               = Ok (l ++ [new_property EmptyString value])) as Happend.
  { intros l. unfold apply_property. simpl.
    rewrite find_first_none; [done|].
    apply Forall_forall. intros q _. unfold is_property_named, has_name.
    replace (existsb _ (children q)) with false; [by rewrite andb_false_r|].
    symmetry. apply not_true_is_false. intros (c & _ & Hc)%existsb_exists.
    unfold text_equals in Hc. rewrite bool_decide_eq_false_2 in Hc; [|by intros []].
    by rewrite andb_false_r in Hc. }
  split; [apply Happend|]. rewrite Happend. simpl.
  by rewrite Happend, <- app_assoc.
Qed.





End xml_more.

(** ** The tool runners *)

Section tools.









End tools.
